(** * Mswasth data-entry portal: form cascade, table view, storage and export

    A shallow embedding of the pure logic of
    - [src/types.ts]                      (the policy record),
    - [src/components/DataEntryForm.tsx]  (partner/product/premium cascade, submit),
    - [src/components/DataTable.tsx]      (search, sort, pagination, CSV export),
    - [src/App.tsx]                       (upsert on save, AI autofill),
    followed by the properties proved about it.

    Modelling conventions.
    - A JavaScript string is a [string]; its characters stand for code units.
    - A JavaScript object is an association list from property names to
      values, in property insertion order ([Object.keys] order).  Reading a
      property that is absent yields [None] (JavaScript's [undefined]).
      [get] reads own properties; [get_member] also follows the prototype
      chain, for the reads where inherited names change what the code does.
    - JavaScript numbers that the program uses as integers (premium, tenure,
      page number, page size, array indices) are [Z].
    - React state is threaded explicitly: a handler is a function from the
      previous state to the next one, exactly as the updater passed to the
      state setter. *)

From Stdlib Require Import ZArith QArith Qround String Ascii OrderedTypeEx.
From stdpp Require Import base list strings sorting pretty.

Local Open Scope string_scope.
Local Open Scope list_scope.
Local Open Scope Z_scope.

(* ================================================================== *)
(** * Part I: the embedding *)
(* ================================================================== *)

(** ** Host language: strings, numbers, objects and arrays *)

Module JS.

(** *** Exceptions *)

(** The exceptions the modelled code can raise. *)
Inductive Exn : Type :=
| TypeError (msg : string)
| Error (msg : string).

(** *** Objects *)

(** An object with values in [V]: own properties in insertion order. *)
Definition Obj (V : Type) : Type := list (string * V).

(** [o[k]] *)
Fixpoint get {V} (k : string) (o : Obj V) : option V :=
  match o with
  | [] => None
  | (k', v) :: o' => if String.eqb k' k then Some v else get k o'
  end.

(** [{ ...o, [k]: v }]: an existing property keeps its position, a new one
    is added last. *)
Fixpoint set {V} (k : string) (v : V) (o : Obj V) : Obj V :=
  match o with
  | [] => [(k, v)]
  | (k', v') :: o' =>
      if String.eqb k' k then (k', v) :: o' else (k', v') :: set k v o'
  end.

(** [{ ...dst, ...src }] *)
Definition spread {V} (src dst : Obj V) : Obj V :=
  fold_left (fun acc kv => set (fst kv) (snd kv) acc) src dst.

Definition Object_keys {V} (o : Obj V) : list string := map fst o.
Definition Object_values {V} (o : Obj V) : list V := map snd o.

(** A property key computed from a value that may be [undefined]:
    [o[undefined]] reads the property named "undefined". *)
Definition prop_key (k : option string) : string :=
  match k with Some s => s | None => "undefined" end.

(** *** Strings *)

(** Truthiness of a string-or-undefined value. *)
Definition truthy (v : option string) : bool :=
  match v with
  | Some s => negb (String.eqb s "")
  | None => false
  end.

(** [String(v)] *)
Definition String_of (v : option string) : string :=
  match v with Some s => s | None => "undefined" end.

(** [s.includes(t)]: [t] occurs in [s] as a contiguous substring. *)
Fixpoint includes (s t : string) : bool :=
  if String.prefix t s then true
  else match s with
       | EmptyString => false
       | String _ s' => includes s' t
       end.

(** [a < b] on strings: lexicographic on code units. *)
Definition str_lt (a b : string) : bool := String.ltb a b.

(** [a < b] where either side may be [undefined]: with an [undefined]
    operand both sides are converted to numbers, [undefined] becomes NaN
    and the comparison is false. *)
Definition lt (a b : option string) : bool :=
  match a, b with
  | Some x, Some y => str_lt x y
  | _, _ => false
  end.

(** [xs.join(sep)] on an array whose elements may be [undefined]
    (rendered as the empty string). *)
Fixpoint join (sep : string) (xs : list (option string)) : string :=
  match xs with
  | [] => ""
  | [x] => default "" x
  | x :: xs' => default "" x +:+ sep +:+ join sep xs'
  end.

(** *** Numbers *)

Definition is_whitespace (c : ascii) : bool :=
  let n := N_of_ascii c in
  (N.leb 9 n && N.leb n 13) || N.eqb n 32 || N.eqb n 160.

Definition digit_of (c : ascii) : option Z :=
  let n := N_of_ascii c in
  if (N.leb 48 n && N.leb n 57)%bool then Some (Z.of_N n - 48) else None.

Fixpoint trim_start (s : string) : string :=
  match s with
  | String c s' => if is_whitespace c then trim_start s' else s
  | EmptyString => s
  end.

(** Value of the longest prefix of decimal digits, continuing from [acc]. *)
Fixpoint parse_digits (s : string) (acc : Z) : Z :=
  match s with
  | String c s' =>
      match digit_of c with
      | Some d => parse_digits s' (10 * acc + d)
      | None => acc
      end
  | EmptyString => acc
  end.

(** [parseInt(s, 10)]; [None] is NaN. *)
Definition parseInt (s : string) : option Z :=
  let s1 := trim_start s in
  let '(sign, s2) :=
    match s1 with
    | String "-" r => (-1, r)
    | String "+" r => (1, r)
    | _ => (1, s1)
    end in
  match s2 with
  | String c _ =>
      match digit_of c with
      | Some _ => Some (sign * parse_digits s2 0)
      | None => None
      end
  | EmptyString => None
  end.

(** [n.toString()] for an integer [n]. *)
Definition Number_toString (n : Z) : string := pretty n.

(** [Math.ceil(a / b)] for integers [a] and [b]; the quotient is taken
    exactly.  (For an array length and a page size of at most 50 the
    double-precision quotient lies between the same two integers, so its
    ceiling is the same.) *)
Definition Math_ceil_div (a b : Z) : Z := Qceiling (inject_Z a / inject_Z b).

(** *** Arrays *)

(** [l.slice(start, end)]; negative indices count from the end and both
    bounds are clamped to the array. *)
Definition slice {A} (l : list A) (start stop : Z) : list A :=
  let len := Z.of_nat (length l) in
  let clamp i := if i <? 0 then Z.max (len + i) 0 else Z.min i len in
  let k := clamp start in
  let final := clamp stop in
  take (Z.to_nat (Z.max (final - k) 0)) (drop (Z.to_nat k) l).

(** [l.find(p)] *)
Definition find {A} (p : A -> bool) (l : list A) : option A := List.find p l.

(** [l.some(p)] *)
Definition some {A} (p : A -> bool) (l : list A) : bool := existsb p l.

(** [l.sort(cmp)].  The standard fixes a stable sort and leaves the
    algorithm open; this is the stable insertion sort.  [cmp a b] is
    negative when [a] goes first and positive when [b] goes first. *)
Fixpoint sort_insert {A} (cmp : A -> A -> Z) (x : A) (l : list A) : list A :=
  match l with
  | [] => [x]
  | y :: l' => if 0 <? cmp x y then y :: sort_insert cmp x l' else x :: l
  end.

Fixpoint sort {A} (cmp : A -> A -> Z) (l : list A) : list A :=
  match l with
  | [] => []
  | x :: l' => sort_insert cmp x (sort cmp l')
  end.

(** [s.split(sep)] for a separator of one character. *)
Fixpoint split_on (sep : ascii) (s : string) : list string :=
  match s with
  | EmptyString => [EmptyString]
  | String c s' =>
      if Ascii.eqb c sep then EmptyString :: split_on sep s'
      else match split_on sep s' with
           | piece :: rest => String c piece :: rest
           | [] => [String c EmptyString]
           end
  end.

(** The characters of a text, and texts made of decimal digits only. *)
Fixpoint chars (s : string) : list ascii :=
  match s with
  | EmptyString => []
  | String c s' => c :: chars s'
  end.

Definition all_digits (s : string) : bool :=
  forallb (fun c => match digit_of c with Some _ => true | None => false end)
          (chars s).

(** *** Inherited properties *)

(** The names every object literal inherits from [Object.prototype]. *)
Definition Object_prototype_names : list string :=
  [ "constructor"; "hasOwnProperty"; "isPrototypeOf"; "propertyIsEnumerable";
    "toLocaleString"; "toString"; "valueOf"; "__proto__";
    "__defineGetter__"; "__defineSetter__"; "__lookupGetter__";
    "__lookupSetter__" ].

Definition inherited (k : string) : bool :=
  existsb (String.eqb k) Object_prototype_names.

(** What [o[k]] gives for an object literal [o] when the prototype chain is
    followed: the value of an own property, the inherited member of that
    name (a built-in function, or the prototype object itself for
    [__proto__]), or [undefined]. *)
Inductive Member (V : Type) : Type :=
| Own (v : V)
| Builtin (name : string)
| Undefined.
Arguments Own {V} _.
Arguments Builtin {V} _.
Arguments Undefined {V}.

Definition get_member {V} (k : string) (o : Obj V) : Member V :=
  match get k o with
  | Some v => Own v
  | None => if inherited k then Builtin k else Undefined
  end.

(** What reading a property of an inherited member gives, as far as the
    program can tell the cases apart: a falsy value ([undefined], 0, the
    empty string, [null]), a truthy one (never an array), or a TypeError
    raised by the read itself. *)
Inductive BuiltinRead : Type := ReadFalsy | ReadTruthy | ReadRaises.

End JS.

(** ** [src/types.ts] *)

Module Types.

(** A policy record is an object whose properties hold strings. *)
Definition PolicyData : Type := JS.Obj string.

(** The property names of [interface PolicyData], in declaration order. *)
Definition PolicyData_keys : list string :=
  [ "id"; "partnerName"; "productDetails"; "premium"; "tenure"; "cseName";
    "branchName"; "branchCode"; "region"; "customerName"; "gender";
    "dateOfBirth"; "mobileNumber"; "customerId"; "enrolmentDate";
    "savingsAccountNumber"; "csbCode"; "d2cRoCode"; "nomineeName";
    "nomineeDateOfBirth"; "nomineeRelationship"; "nomineeMobileNumber";
    "nomineeGender"; "remarks" ].

(** An object that has every property of the interface. *)
Definition well_typed (p : PolicyData) : Prop :=
  Forall (fun k => is_Some (JS.get k p)) PolicyData_keys.

End Types.

(** ** [src/components/DataEntryForm.tsx] *)

Module DataEntryForm.
Import Types.

(** One row of the static lookup table: [{ Premium, Tenure, 'CSE Name' }]. *)
Record PremiumEntry : Type := mkPremiumEntry {
  Premium : Z;
  Tenure : Z;
  CSE_Name : string
}.

(** The three-level table [partnerData] of [src/constants.ts]:
    partner name, then product name, then the list of premium rows. *)
Definition PartnerData : Type := JS.Obj (JS.Obj (list PremiumEntry)).

Definition emptyForm : PolicyData :=
  [ ("id", ""); ("partnerName", ""); ("productDetails", ""); ("premium", "");
    ("tenure", ""); ("cseName", "");
    ("branchName", ""); ("branchCode", ""); ("region", "");
    ("customerName", ""); ("gender", "");
    ("dateOfBirth", ""); ("mobileNumber", ""); ("customerId", "");
    ("enrolmentDate", "");
    ("savingsAccountNumber", ""); ("csbCode", ""); ("d2cRoCode", "");
    ("nomineeName", "");
    ("nomineeDateOfBirth", ""); ("nomineeRelationship", "");
    ("nomineeMobileNumber", "");
    ("nomineeGender", ""); ("remarks", "") ].

(** An option of a dropdown. *)
Record SelectOption (V : Type) : Type := mkOption {
  value : V;
  label : string
}.
Arguments mkOption {V} _ _.
Arguments value {V} _.
Arguments label {V} _.

(** The updater of [handleChange]: [{ ...prev, [name]: value }]. *)
Definition handleChange (name value : string) (prev : PolicyData) : PolicyData :=
  JS.set name value prev.

(** The updater of [handlePartnerChange]; [name] and [value] come from the
    changed element. *)
Definition handlePartnerChange (name value : string) (prev : PolicyData)
  : PolicyData :=
  JS.set "cseName" ""
    (JS.set "tenure" ""
      (JS.set "premium" ""
        (JS.set "productDetails" ""
          (JS.set name value prev)))).

(** The updater of [handleProductChange]. *)
Definition handleProductChange (name value : string) (prev : PolicyData)
  : PolicyData :=
  JS.set "cseName" ""
    (JS.set "tenure" ""
      (JS.set "premium" ""
        (JS.set name value prev))).

(** The [name] attributes of the two dropdowns in the rendered form. *)
Definition partner_select_name : string := "partnerName".
Definition product_select_name : string := "productDetails".

Section Cascade.
(** The table exported by [src/constants.ts]; every property below holds
    for any table of this shape. *)
Variable partnerData : PartnerData.

(** [partnerData[formData.partnerName]?.[formData.productDetails]] *)
Definition lookup_product (formData : PolicyData)
  : option (list PremiumEntry) :=
  match JS.get (JS.prop_key (JS.get "partnerName" formData)) partnerData with
  | Some products =>
      JS.get (JS.prop_key (JS.get "productDetails" formData)) products
  | None => None
  end.

(** [product?.find(p => p.Premium === premiumValue)]; a NaN
    [premiumValue] is equal to nothing. *)
Definition find_premium (product : option (list PremiumEntry))
    (premiumValue : option Z) : option PremiumEntry :=
  match product with
  | Some rows =>
      JS.find (fun p => match premiumValue with
                        | Some n => Z.eqb (Premium p) n
                        | None => false
                        end) rows
  | None => None
  end.

(** [handlePremiumChange]: the lookup reads the rendered [formData], the
    returned updater is applied to the previous state. *)
Definition handlePremiumChange (formData : PolicyData) (value : string)
    (prev : PolicyData) : PolicyData :=
  let premiumValue := JS.parseInt value in
  let product := lookup_product formData in
  let selectedPremiumData := find_premium product premiumValue in
  match selectedPremiumData with
  | Some d =>
      JS.set "cseName" (CSE_Name d)
        (JS.set "tenure" (JS.Number_toString (Tenure d))
          (JS.set "premium" value prev))
  | None =>
      JS.set "cseName" ""
        (JS.set "tenure" ""
          (JS.set "premium" value prev))
  end.

Definition productOptions (formData : PolicyData)
  : list (SelectOption string) :=
  if JS.truthy (JS.get "partnerName" formData) then
    map (fun p => mkOption p p)
      (JS.Object_keys
         (default [] (JS.get (JS.prop_key (JS.get "partnerName" formData))
                        partnerData)))
  else [].

(** The premium options read from the table's own entries; the render
    with inherited names included is [premiumOptions_rendered] below. *)
Definition premiumOptions (formData : PolicyData)
  : list (SelectOption Z) :=
  if JS.truthy (JS.get "partnerName" formData)
     && JS.truthy (JS.get "productDetails" formData) then
    map (fun p => mkOption (Premium p)
                    ("₹ " +:+ JS.Number_toString (Premium p)))
      (default [] (lookup_product formData))
  else [].
End Cascade.

(** Shape of [new Date().toISOString()]: [YYYY-MM-DDTHH:mm:ss.sssZ]. *)
Definition is_digit (c : ascii) : bool :=
  match JS.digit_of c with Some _ => true | None => false end.

Fixpoint matches_shape (shape s : string) : bool :=
  match shape, s with
  | EmptyString, EmptyString => true
  | String p shape', String c s' =>
      (if Ascii.eqb p "d" then is_digit c else Ascii.eqb p c)
      && matches_shape shape' s'
  | _, _ => false
  end.

Definition is_ISO_timestamp (s : string) : bool :=
  matches_shape "dddd-dd-ddTdd:dd:dd.dddZ" s.

(** [formData.id || new Date().toISOString()], with the clock reading
    [now] supplied by the caller. *)
Definition submit_id (formData : PolicyData) (now : string) : string :=
  if JS.truthy (JS.get "id" formData)
  then JS.String_of (JS.get "id" formData)
  else now.

(** [handleSubmit]: the record handed to [onSave] and the next form state. *)
Definition handleSubmit (formData : PolicyData) (now : string)
  : PolicyData * PolicyData :=
  (JS.set "id" (submit_id formData now) formData, emptyForm).

(** The updater of [handleVoiceInput]: [{ ...prev, [name]: text }]. *)
Definition handleVoiceInput (name text : string) (prev : PolicyData)
  : PolicyData :=
  JS.set name text prev.

(** The form's effect on a change of [currentData]:
    [currentData ? { ...currentData } : emptyForm]. *)
Definition load_currentData (currentData : option PolicyData) : PolicyData :=
  match currentData with
  | Some p => p
  | None => emptyForm
  end.

(** The text on the submit button. *)
Definition submit_label (formData : PolicyData) : string :=
  if JS.truthy (JS.get "id" formData) then "Update Entry" else "Add Entry".

Section Render.
(** The host's built-in objects: [builtin_read a b] is what [m[b]] gives
    for the member [m] that object literals inherit under the name [a]. *)
Variable builtin_read : string -> string -> JS.BuiltinRead.
(** The table exported by [src/constants.ts]. *)
Variable partnerData : PartnerData.

(** [premiumOptions] as the render evaluates it, with the prototype chain
    followed by both property reads.  Calling [map] on a truthy value that
    is not an array raises a TypeError. *)
Definition premiumOptions_rendered (formData : PolicyData)
  : JS.Exn + list (SelectOption Z) :=
  if JS.truthy (JS.get "partnerName" formData)
     && JS.truthy (JS.get "productDetails" formData) then
    match JS.get_member (JS.prop_key (JS.get "partnerName" formData))
            partnerData with
    | JS.Own products =>
        match JS.get_member (JS.prop_key (JS.get "productDetails" formData))
                products with
        | JS.Own rows =>
            inr (map (fun p => mkOption (Premium p)
                                 ("₹ " +:+ JS.Number_toString (Premium p)))
                     rows)
        | JS.Builtin _ => inl (JS.TypeError "map is not a function")
        | JS.Undefined => inr []
        end
    | JS.Builtin a =>
        match builtin_read a (JS.prop_key (JS.get "productDetails" formData)) with
        | JS.ReadFalsy => inr []
        | JS.ReadTruthy => inl (JS.TypeError "map is not a function")
        | JS.ReadRaises => inl (JS.TypeError "restricted property")
        end
    | JS.Undefined => inr []
    end
  else inr [].
End Render.

End DataEntryForm.


(** ** [src/components/FormElements.tsx] *)

Module FormElements.
Import DataEntryForm.

(** The values a [Select] can report: the placeholder's empty value, then
    the value of each option as the text of its [value] attribute. *)
Definition select_values {V} (text : V -> string)
    (options : list (SelectOption V)) : list string :=
  "" :: map (fun opt => text (value opt)) options.

End FormElements.

(** ** [src/components/DataTable.tsx] *)

Module DataTable.
Import Types.

(** *** Export to CSV *)

Definition LF : string := String "010"%char EmptyString.
Definition quote : string := String "034"%char EmptyString.
Definition backslash : string := String "092"%char EmptyString.

Definition hex_digit (n : N) : ascii :=
  if N.ltb n 10 then ascii_of_N (48 + n) else ascii_of_N (87 + n).

(** One code unit inside a JSON string literal. *)
Definition JSON_quote_char (c : ascii) : string :=
  let n := N_of_ascii c in
  if N.eqb n 8 then backslash +:+ "b"
  else if N.eqb n 9 then backslash +:+ "t"
  else if N.eqb n 10 then backslash +:+ "n"
  else if N.eqb n 12 then backslash +:+ "f"
  else if N.eqb n 13 then backslash +:+ "r"
  else if N.eqb n 34 then backslash +:+ quote
  else if N.eqb n 92 then backslash +:+ backslash
  else if N.ltb n 32 then
    backslash +:+ "u00" +:+
      String (hex_digit (N.div n 16)) (String (hex_digit (N.modulo n 16)) EmptyString)
  else String c EmptyString.

Fixpoint JSON_quote_body (s : string) : string :=
  match s with
  | EmptyString => EmptyString
  | String c s' => JSON_quote_char c +:+ JSON_quote_body s'
  end.

(** [JSON.stringify(v, (key, value) => value === null ? '' : value)] on a
    string or [undefined]: a string becomes a quoted literal, [undefined]
    stays [undefined]. *)
Definition JSON_stringify (v : option string) : option string :=
  match v with
  | Some s => Some (quote +:+ JSON_quote_body s +:+ quote)
  | None => None
  end.

(** The header line. *)
Definition csv_header (headers : list string) : string :=
  JS.join "," (map Some headers).

(** The line of one record: [row[header]] for every header, in header order. *)
Definition csv_row (headers : list string) (row : PolicyData) : string :=
  JS.join "," (map (fun header => JSON_stringify (JS.get header row)) headers).

(** The text [csvContent] built by [exportToCSV]; [Object.keys(data[0])]
    throws a TypeError when [data[0]] is [undefined]. *)
Definition exportToCSV (data : list PolicyData) : JS.Exn + string :=
  match data with
  | [] => inl (JS.TypeError "Cannot convert undefined or null to object")
  | first :: _ =>
      let headers := JS.Object_keys first in
      inr (JS.join LF
             (map Some (csv_header headers :: map (csv_row headers) data)))
  end.

(** The number of line breaks in a text: its lines are one more. *)
Fixpoint count_LF (s : string) : nat :=
  match s with
  | EmptyString => 0
  | String c s' => (if Ascii.eqb c "010" then 1 else 0) + count_LF s'
  end.

(** *** Table state *)

Inductive Direction : Type := ascending | descending.

Record SortConfig : Type := mkSortConfig {
  key : string;
  direction : Direction
}.

Definition is_ascending (d : Direction) : bool :=
  match d with ascending => true | descending => false end.

Section Search.
(** [String.prototype.toLowerCase], supplied by the host. *)
Variable toLowerCase : string -> string.

(** The predicate of the filter: some value of the record, as a lowercased
    string, includes the lowercased search term. *)
Definition matches_search (searchTerm : string) (item : PolicyData) : bool :=
  JS.some
    (fun val =>
       JS.includes (toLowerCase (JS.String_of (Some val)))
                   (toLowerCase searchTerm))
    (JS.Object_values item).

Definition filteredData (data : list PolicyData) (searchTerm : string)
  : list PolicyData :=
  List.filter (matches_search searchTerm) data.

(** What the search asks of a record, in words: one of its values,
    lowercased, contains the lowercased term as a contiguous substring. *)
Definition has_match (searchTerm : string) (item : PolicyData) : Prop :=
  exists val pre post : string,
    In val (JS.Object_values item) /\
    toLowerCase val = pre +:+ toLowerCase searchTerm +:+ post.
End Search.

(** The comparator handed to [sort]. *)
Definition compare_by (cfg : SortConfig) (a b : PolicyData) : Z :=
  if JS.lt (JS.get (key cfg) a) (JS.get (key cfg) b) then
    (if is_ascending (direction cfg) then -1 else 1)
  else if JS.lt (JS.get (key cfg) b) (JS.get (key cfg) a) then
    (if is_ascending (direction cfg) then 1 else -1)
  else 0.

Definition sortedData (filteredData : list PolicyData)
    (sortConfig : option SortConfig) : list PolicyData :=
  match sortConfig with
  | Some cfg => JS.sort (compare_by cfg) filteredData
  | None => filteredData
  end.

Definition paginatedData (sortedData : list PolicyData)
    (currentPage itemsPerPage : Z) : list PolicyData :=
  let startIndex := (currentPage - 1) * itemsPerPage in
  JS.slice sortedData startIndex (startIndex + itemsPerPage).

(** [requestSort]: the next value of [sortConfig]. *)
Definition requestSort (k : string) (sortConfig : option SortConfig)
  : option SortConfig :=
  let direction :=
    match sortConfig with
    | Some cfg =>
        if String.eqb (key cfg) k && is_ascending (direction cfg)
        then descending else ascending
    | None => ascending
    end in
  Some (mkSortConfig k direction).

Definition totalPages (sortedData : list PolicyData) (itemsPerPage : Z) : Z :=
  JS.Math_ceil_div (Z.of_nat (length sortedData)) itemsPerPage.

(** What a sort by [cfg] asks of a record [a] placed before a record [b]:
    both have the key, and [b]'s value is not below [a]'s when ascending,
    [a]'s is not below [b]'s when descending. *)
Definition in_order (cfg : SortConfig) (a b : PolicyData) : Prop :=
  exists x y : string,
    JS.get (key cfg) a = Some x /\ JS.get (key cfg) b = Some y /\
    match direction cfg with
    | ascending => JS.str_lt y x = false
    | descending => JS.str_lt x y = false
    end.

(** The page sizes offered by the rows-per-page dropdown. *)
Definition page_sizes : list Z := [10; 20; 50].

(** The table handed to [autoTable] by [exportToPDF]: the head row and the
    body rows.  [Object.keys(data[0])] throws as in [exportToCSV]. *)
Definition exportToPDF (data : list PolicyData)
  : JS.Exn + (list string * list (list string)) :=
  match data with
  | [] => inl (JS.TypeError "Cannot convert undefined or null to object")
  | first :: _ => inr (JS.Object_keys first, map JS.Object_values data)
  end.

(** The updaters of the two paging buttons. *)
Definition previous_page (p : Z) : Z := Z.max 1 (p - 1).
Definition next_page (totalPages p : Z) : Z := Z.min totalPages (p + 1).

(** [disabled] of the two paging buttons. *)
Definition previous_disabled (currentPage : Z) : bool := Z.eqb currentPage 1.
Definition next_disabled (currentPage totalPages : Z) : bool :=
  Z.eqb currentPage totalPages.

(** The other direction. *)
Definition flip_direction (d : Direction) : Direction :=
  match d with ascending => descending | descending => ascending end.

End DataTable.

(** ** [src/App.tsx] *)

Module App.
Import Types.

(** [a === b] on values that are strings or [undefined]. *)
Definition strict_eq (a b : option string) : bool :=
  match a, b with
  | Some x, Some y => String.eqb x y
  | None, None => true
  | _, _ => false
  end.

Definition same_id (p q : PolicyData) : bool :=
  strict_eq (JS.get "id" p) (JS.get "id" q).

(** The updater that [handleSavePolicy] passes to [setPolicies]. *)
Definition save_policies (policyData : PolicyData) (prevPolicies : list PolicyData)
  : list PolicyData :=
  let exists_ := JS.some (fun p => same_id p policyData) prevPolicies in
  if exists_ then
    map (fun p => if same_id p policyData then policyData else p) prevPolicies
  else prevPolicies ++ [policyData].

(** The state owned by [App], by the form and by [ImageManager]. *)
Record State : Type := mkState {
  policies : list PolicyData;            (* stored list, key 'mswasth-policies' *)
  currentPolicy : option PolicyData;
  formData : PolicyData;                 (* DataEntryForm *)
  isLoading : bool;                      (* ImageManager *)
  error : string;                        (* ImageManager *)
  requests : nat                         (* calls made to the AI endpoint *)
}.

Definition set_policies (f : list PolicyData -> list PolicyData) (st : State) :=
  mkState (f (policies st)) (currentPolicy st) (formData st)
          (isLoading st) (error st) (requests st).

(** Setting [currentPolicy] to [null] or to a newly built object.  When the
    value changes, the form's effect loads [{ ...currentData }] or
    [emptyForm] into [formData]; [null] after [null] is no change. *)
Definition set_currentPolicy (c : option PolicyData) (st : State) :=
  mkState (policies st) c
          (match c, currentPolicy st with
           | None, None => formData st
           | _, _ => default DataEntryForm.emptyForm c
           end)
          (isLoading st) (error st) (requests st).

Definition set_isLoading (b : bool) (st : State) :=
  mkState (policies st) (currentPolicy st) (formData st) b (error st)
          (requests st).

Definition set_error (e : string) (st : State) :=
  mkState (policies st) (currentPolicy st) (formData st) (isLoading st) e
          (requests st).

Definition count_request (st : State) :=
  mkState (policies st) (currentPolicy st) (formData st) (isLoading st)
          (error st) (S (requests st)).

Definition handleSavePolicy (policyData : PolicyData) (st : State) : State :=
  set_currentPolicy None (set_policies (save_policies policyData) st).

(** The object used when nothing is being edited. *)
Definition autofill_base : PolicyData :=
  [ ("id", ""); ("tenure", ""); ("cseName", ""); ("gender", "");
    ("nomineeGender", ""); ("remarks", "") ].

(** The updater of [App]'s [handleAutofill]:
    [{ ...(prev || base), ...data, id: prev?.id || '' }]. *)
Definition autofill_policy (data : JS.Obj string) (prev : option PolicyData)
  : PolicyData :=
  JS.set "id"
    (match prev with
     | Some p => if JS.truthy (JS.get "id" p)
                 then JS.String_of (JS.get "id" p) else ""
     | None => ""
     end)
    (JS.spread data (default autofill_base prev)).

Definition onAutofill (data : JS.Obj string) (st : State) : State :=
  set_currentPolicy (Some (autofill_policy data (currentPolicy st))) st.

(** *** [ImageManager]'s [handleAutofill] *)

(** The result of a step that may throw. *)
Inductive Outcome (A : Type) : Type :=
| Ok (a : A)
| Throw (e : JS.Exn).
Arguments Ok {A} _.
Arguments Throw {A} _.

Definition bind {A B} (m : Outcome A) (k : A -> Outcome B) : Outcome B :=
  match m with
  | Ok a => k a
  | Throw e => Throw e
  end.

(** What the surroundings answer during one click on "Autofill with AI". *)
Record Env : Type := mkEnv {
  selected_file : option string;          (* fileInputRef.current?.files?.[0] *)
  API_KEY : option string;                (* process.env.API_KEY *)
  generateContent : Outcome string;       (* response.text, or the rejection *)
  JSON_parse : string -> Outcome (JS.Obj string)
}.

(** The body of the [try] block up to the parsed data; the request is
    counted when it is sent. *)
Definition try_extract (env : Env) (st : State)
  : State * Outcome (JS.Obj string) :=
  if negb (JS.truthy (API_KEY env)) then
    (st, Throw (JS.Error "API_KEY environment variable not set."))
  else
    (count_request st, bind (generateContent env) (JSON_parse env)).

(** The handler once the image has been read; [handleAutofill_click]
    below includes the read. *)
Definition handleAutofill (env : Env) (st : State) : State :=
  match selected_file env with
  | None => set_error "Please select an image file first." st
  | Some _ =>
      let st1 := set_error "" (set_isLoading true st) in
      let '(st2, r) := try_extract env st1 in
      let st3 :=
        match r with
        | Ok parsedData => onAutofill parsedData st2
        | Throw _ =>
            set_error
              "Failed to extract data. Please check the image or try again."
              st2
        end in
      set_isLoading false st3
  end.

(** The updater of [handleDeletePolicy]: [prev.filter(p => p.id !== id)]. *)
Definition delete_policies (id : string) (prev : list PolicyData)
  : list PolicyData :=
  List.filter (fun p => negb (strict_eq (JS.get "id" p) (Some id))) prev.

(** [handleDeletePolicy]; [confirmed] is the answer of [window.confirm]. *)
Definition handleDeletePolicy (confirmed : bool) (id : string) (st : State)
  : State :=
  if confirmed then set_policies (delete_policies id) st else st.

Definition handleDeleteAll (confirmed : bool) (st : State) : State :=
  if confirmed then set_policies (fun _ => []) st else st.

(** [policies.find(p => p.id === id)] of [handleEditPolicy]. *)
Definition policyToEdit (id : string) (policies : list PolicyData)
  : option PolicyData :=
  JS.find (fun p => strict_eq (JS.get "id" p) (Some id)) policies.

(** [(reader.result as string).split(',')[1]] of
    [imageFileToGenerativePart]. *)
Definition base64_of_dataURL (result : string) : option string :=
  JS.split_on "," result !! 1%nat.

(** A record carries a non-empty [id]. *)
Definition has_id (p : PolicyData) : bool := JS.truthy (JS.get "id" p).


(** What the file reader holds when [onloadend] fires: the data URL of the
    image, or [null] after a failed read. *)
Inductive ReaderResult : Type :=
| reader_dataURL (url : string)
| reader_null.

(** The promise awaited from [imageFileToGenerativePart]: [Some data] when
    it resolves, with the payload of the data URL as [data]; [None] when it
    never settles, which is the case after a failed read, where
    [reader.result.split] throws inside the event handler and [resolve] is
    never called. *)
Definition imageFileToGenerativePart (r : ReaderResult)
  : option (option string) :=
  match r with
  | reader_dataURL url => Some (base64_of_dataURL url)
  | reader_null => None
  end.

(** One click on "Autofill with AI" with the image read included: the
    state after everything the handler ever does.  When the awaited read
    never settles the handler never resumes, so neither [catch] nor
    [finally] runs. *)
Definition handleAutofill_click (r : ReaderResult) (env : Env) (st : State)
  : State :=
  match selected_file env with
  | None => set_error "Please select an image file first." st
  | Some _ =>
      let st1 := set_error "" (set_isLoading true st) in
      if negb (JS.truthy (API_KEY env)) then
        set_isLoading false
          (set_error
             "Failed to extract data. Please check the image or try again."
             st1)
      else
        match imageFileToGenerativePart r with
        | None => st1
        | Some _ =>
            let st2 := count_request st1 in
            let st3 :=
              match bind (generateContent env) (JSON_parse env) with
              | Ok parsedData => onAutofill parsedData st2
              | Throw _ =>
                  set_error
                    "Failed to extract data. Please check the image or try again."
                    st2
              end in
            set_isLoading false st3
        end
  end.

(** The stored lists that the handlers can produce from the empty list:
    by submitting the form at some clock reading, by deleting one id, by
    deleting everything. *)
Inductive reachable : list PolicyData -> Prop :=
| reach_empty : reachable []
| reach_submit (l : list PolicyData) (formData : PolicyData) (now : string) :
    reachable l ->
    DataEntryForm.is_ISO_timestamp now = true ->
    reachable (save_policies (fst (DataEntryForm.handleSubmit formData now)) l)
| reach_delete (l : list PolicyData) (id : string) :
    reachable l -> reachable (delete_policies id l)
| reach_delete_all (l : list PolicyData) :
    reachable l -> reachable [].

End App.

(** ** Sample data *)

Module Samples.
Import Types DataEntryForm.

Definition gold_rows : list PremiumEntry :=
  [ mkPremiumEntry 500 1 "Ravi"; mkPremiumEntry 900 2 "Meena" ].

Definition acme_products : JS.Obj (list PremiumEntry) :=
  [ ("Gold", gold_rows); ("Silver", [ mkPremiumEntry 300 1 "Ravi" ]) ].

Definition sample_table : PartnerData :=
  [ ("Acme", acme_products);
    ("Zenith", [ ("Basic", [ mkPremiumEntry 120 3 "Kiran" ]) ]) ].

Definition acme_gold_form : PolicyData :=
  JS.set "productDetails" "Gold" (JS.set "partnerName" "Acme" emptyForm).

Definition record (id name : string) : PolicyData :=
  JS.set "customerName" name (JS.set "id" id emptyForm).

(** A lowering of the capitals A to Z, for running the search. *)
Fixpoint ascii_toLowerCase (s : string) : string :=
  match s with
  | EmptyString => EmptyString
  | String c s' =>
      let n := N_of_ascii c in
      String (if (N.leb 65 n && N.leb n 90)%bool then ascii_of_N (n + 32) else c)
             (ascii_toLowerCase s')
  end.

Definition sample_time : string := "2024-03-09T10:15:30.250Z".

End Samples.


(* ================================================================== *)
(** * Part II: properties *)
(* ================================================================== *)

(** ** Objects: reading after writing *)

Module ObjFacts.
Import JS.

Lemma get_set_eq {V} (k : string) (v : V) (o : Obj V) :
  get k (set k v o) = Some v.
Proof.
  induction o as [|[k' v'] o IH]; simpl.
  - now rewrite String.eqb_refl.
  - destruct (String.eqb k' k) eqn:E; simpl; now rewrite E.
Qed.

Lemma get_set_ne {V} (k k' : string) (v : V) (o : Obj V) :
  k <> k' -> get k' (set k v o) = get k' o.
Proof.
  intros Hne. induction o as [|[k0 v0] o IH]; simpl.
  - destruct (String.eqb_spec k k'); congruence.
  - destruct (String.eqb_spec k0 k) as [->|Hk]; simpl.
    + destruct (String.eqb_spec k k'); congruence.
    + destruct (String.eqb_spec k0 k'); congruence.
Qed.

Lemma keys_set_present {V} (k : string) (v : V) (o : Obj V) :
  is_Some (get k o) -> Object_keys (set k v o) = Object_keys o.
Proof.
  induction o as [|[k0 v0] o IH]; simpl; intros [x Hx]; [discriminate|].
  destruct (String.eqb k0 k); simpl; [reflexivity|].
  f_equal. apply IH. eauto.
Qed.

Lemma keys_set_absent {V} (k : string) (v : V) (o : Obj V) :
  get k o = None -> Object_keys (set k v o) = Object_keys o ++ [k].
Proof.
  induction o as [|[k0 v0] o IH]; simpl; intros Hx; [reflexivity|].
  destruct (String.eqb k0 k); [discriminate|]. simpl. f_equal. now apply IH.
Qed.

Lemma length_set_present {V} (k : string) (v : V) (o : Obj V) :
  is_Some (get k o) -> length (set k v o) = length o.
Proof.
  intros H. apply (keys_set_present k v) in H.
  unfold Object_keys in H. apply (f_equal (@length _)) in H.
  now rewrite !length_map in H.
Qed.

Lemma truthy_Some (v : option string) :
  truthy v = true -> exists s, v = Some s /\ s <> "".
Proof.
  destruct v as [s|]; simpl; [|discriminate].
  destruct (String.eqb_spec s ""); [discriminate|]. eauto.
Qed.

Lemma truthy_false (v : option string) :
  truthy v = false -> v = None \/ v = Some "".
Proof.
  destruct v as [s|]; simpl; [|auto].
  destruct (String.eqb_spec s ""); [subst; auto|discriminate].
Qed.

(** Rewrites a read of a concrete property after a chain of writes. *)
Ltac get_set :=
  repeat first
    [ rewrite get_set_eq
    | rewrite get_set_ne by (first [assumption | discriminate | congruence]) ].

End ObjFacts.

(** ** The form: partner and product changes *)

Module FormFacts.
Import JS Types DataEntryForm ObjFacts.

(** C9.  Changing the partner writes the new partner and clears product
    details, premium, tenure and CSE name; changing the product writes the
    new product and clears premium, tenure and CSE name.  Every other
    property of the form reads as before (for a product change this
    includes the partner), and the form keeps its properties and their
    order. *)
Theorem partner_and_product_change_frame (value : string) (prev : PolicyData) :
  (let next := handlePartnerChange partner_select_name value prev in
   get "partnerName" next = Some value /\
   get "productDetails" next = Some "" /\
   get "premium" next = Some "" /\
   get "tenure" next = Some "" /\
   get "cseName" next = Some "" /\
   (forall k : string,
      ~ In k ["partnerName"; "productDetails"; "premium"; "tenure"; "cseName"] ->
      get k next = get k prev) /\
   (well_typed prev -> Object_keys next = Object_keys prev)) /\
  (let next := handleProductChange product_select_name value prev in
   get "productDetails" next = Some value /\
   get "premium" next = Some "" /\
   get "tenure" next = Some "" /\
   get "cseName" next = Some "" /\
   get "partnerName" next = get "partnerName" prev /\
   (forall k : string,
      ~ In k ["productDetails"; "premium"; "tenure"; "cseName"] ->
      get k next = get k prev) /\
   (well_typed prev -> Object_keys next = Object_keys prev)).
Proof.
  unfold handlePartnerChange, handleProductChange, partner_select_name,
    product_select_name.
  split; cbv zeta.
  - repeat split; try (now get_set).
    + intros k Hk. simpl in Hk.
      rewrite !get_set_ne; [reflexivity|intros E; subst k; tauto..].
    + intros Hwt. unfold well_typed, PolicyData_keys in Hwt.
      repeat match goal with
             | H : Forall _ (_ :: _) |- _ => apply Forall_cons_1 in H; destruct H
             end.
      rewrite !keys_set_present; [reflexivity|get_set; assumption..].
  - repeat split; try (now get_set).
    + intros k Hk. simpl in Hk.
      rewrite !get_set_ne; [reflexivity|intros E; subst k; tauto..].
    + intros Hwt. unfold well_typed, PolicyData_keys in Hwt.
      repeat match goal with
             | H : Forall _ (_ :: _) |- _ => apply Forall_cons_1 in H; destruct H
             end.
      rewrite !keys_set_present; [reflexivity|get_set; assumption..].
Qed.

(** The frame theorem at a concrete form. *)
Lemma partner_and_product_change_frame_witness :
  get "customerName"
      (handlePartnerChange partner_select_name "Acme"
         (set "customerName" "Asha" emptyForm)) = Some "Asha" /\
  Object_keys (handleProductChange product_select_name "Gold" emptyForm)
  = PolicyData_keys.
Proof.
  split.
  - destruct (partner_and_product_change_frame "Acme"
                (set "customerName" "Asha" emptyForm))
      as [(_ & _ & _ & _ & _ & Hframe & _) _].
    cbv zeta in Hframe. rewrite Hframe; [reflexivity|].
    simpl. intros H. repeat (destruct H as [H|H]; [discriminate H|]). exact H.
  - destruct (partner_and_product_change_frame "Gold" emptyForm)
      as [_ (_ & _ & _ & _ & _ & _ & Hkeys)].
    cbv zeta in Hkeys. rewrite Hkeys; [reflexivity|].
    unfold well_typed, PolicyData_keys.
    repeat (apply Forall_cons_2; [eexists; reflexivity|]). apply Forall_nil_2.
Defined.

(** ** The form: premium change and dropdown options *)

Lemma find_first {A} (f : A -> bool) (l : list A) (i : nat) (e : A) :
  l !! i = Some e -> f e = true ->
  (forall (j : nat) (e' : A), (j < i)%nat -> l !! j = Some e' -> f e' = false) ->
  JS.find f l = Some e.
Proof.
  unfold JS.find. revert i. induction l as [|x l IH]; intros i Hi He Hfirst.
  - destruct i; discriminate.
  - destruct i as [|i]; simpl in *.
    + injection Hi as ->. now rewrite He.
    + rewrite (Hfirst 0%nat x) by (reflexivity || lia).
      apply (IH i); [assumption..|].
      intros j e' Hj Hl. apply (Hfirst (S j) e'); [lia|assumption].
Qed.

Lemma find_absent {A} (f : A -> bool) (l : list A) :
  (forall e, In e l -> f e = false) -> JS.find f l = None.
Proof.
  unfold JS.find. induction l as [|x l IH]; intros H; simpl; [reflexivity|].
  rewrite (H x) by now left. apply IH. intros e He. apply H. now right.
Qed.

Section CascadeFacts.
Variable partnerData : PartnerData.

Lemma lookup_product_selected (formData : PolicyData) (partner product : string)
    (products : Obj (list PremiumEntry)) :
  get "partnerName" formData = Some partner ->
  get "productDetails" formData = Some product ->
  get partner partnerData = Some products ->
  lookup_product partnerData formData = get product products.
Proof.
  intros Hp Hd Ht. unfold lookup_product. rewrite Hp, Hd. simpl. now rewrite Ht.
Qed.

(** C4.  With a partner and a product selected that the table knows,
    choosing a premium stores the chosen value; when its integer value is
    the premium of a row of that table entry, tenure becomes the decimal
    string of the (first such) row's tenure and CSE name becomes that row's
    representative; when no row has that premium, tenure and CSE name
    become empty strings.  No other property changes. *)
Theorem premium_change_fills_tenure_and_cse
    (formData prev : PolicyData) (value partner product : string)
    (products : Obj (list PremiumEntry)) (rows : list PremiumEntry) :
  get "partnerName" formData = Some partner ->
  get "productDetails" formData = Some product ->
  get partner partnerData = Some products ->
  get product products = Some rows ->
  let next := handlePremiumChange partnerData formData value prev in
  get "premium" next = Some value /\
  (forall (n : Z) (i : nat) (e : PremiumEntry),
     parseInt value = Some n ->
     rows !! i = Some e -> Premium e = n ->
     (forall (j : nat) (e' : PremiumEntry),
        (j < i)%nat -> rows !! j = Some e' -> Premium e' <> n) ->
     get "tenure" next = Some (Number_toString (Tenure e)) /\
     get "cseName" next = Some (CSE_Name e)) /\
  ((forall e : PremiumEntry, In e rows -> Some (Premium e) <> parseInt value) ->
   get "tenure" next = Some "" /\ get "cseName" next = Some "") /\
  (forall k : string,
     ~ In k ["premium"; "tenure"; "cseName"] -> get k next = get k prev).
Proof.
  intros Hp Hd Ht Hr next. subst next. unfold handlePremiumChange.
  rewrite (lookup_product_selected _ _ _ _ Hp Hd Ht), Hr.
  split; [|split; [|split]].
  - destruct (find_premium _ _); now get_set.
  - intros n i e Hn Hi He Hfirst. unfold find_premium. rewrite Hn.
    rewrite (find_first _ rows i e Hi).
    + now get_set.
    + now apply Z.eqb_eq.
    + intros j e' Hj Hl. apply Z.eqb_neq. now apply (Hfirst j).
  - intros Hnone. unfold find_premium. rewrite find_absent; [now get_set|].
    intros e He. specialize (Hnone e He).
    destruct (parseInt value) as [n|]; [|reflexivity].
    apply Z.eqb_neq. congruence.
  - intros k Hk. simpl in Hk.
    destruct (find_premium _ _);
      (rewrite !get_set_ne; [reflexivity|intros E; subst k; tauto..]).
Qed.

(** Within the table's own entries: the product dropdown lists, in table
    order, the product names under the selected partner and nothing when no
    partner is selected; the premium dropdown lists, in table order, the
    premiums of the rows under the selected partner and product and nothing
    when either is unselected. *)
Theorem dropdown_options_follow_table (formData : PolicyData) :
  (truthy (get "partnerName" formData) = false ->
   productOptions partnerData formData = [] /\
   premiumOptions partnerData formData = []) /\
  (truthy (get "productDetails" formData) = false ->
   premiumOptions partnerData formData = []) /\
  (forall (partner : string) (products : Obj (list PremiumEntry)),
     get "partnerName" formData = Some partner -> partner <> "" ->
     get partner partnerData = Some products ->
     map value (productOptions partnerData formData) = Object_keys products /\
     map label (productOptions partnerData formData) = Object_keys products /\
     forall (product : string) (rows : list PremiumEntry),
       get "productDetails" formData = Some product -> product <> "" ->
       get product products = Some rows ->
       map value (premiumOptions partnerData formData) = map Premium rows /\
       map label (premiumOptions partnerData formData)
       = map (fun e => "₹ " +:+ Number_toString (Premium e)) rows).
Proof.
  unfold productOptions, premiumOptions.
  split; [|split].
  - intros ->. split; reflexivity.
  - intros ->. now rewrite andb_false_r.
  - intros partner products Hp Hne Ht.
    assert (Htp : truthy (get "partnerName" formData) = true).
    { rewrite Hp. simpl. now destruct (String.eqb_spec partner ""). }
    rewrite Htp, Hp. simpl prop_key. rewrite Ht. simpl default.
    rewrite !map_map. simpl. rewrite !map_id.
    split; [reflexivity|split; [reflexivity|]].
    intros product rows Hd Hdne Hr.
    assert (Htd : truthy (get "productDetails" formData) = true).
    { rewrite Hd. simpl. now destruct (String.eqb_spec product ""). }
    rewrite Htd, (lookup_product_selected _ _ _ _ Hp Hd Ht), Hr. simpl.
    rewrite !map_map. simpl. split; reflexivity.
Qed.

End CascadeFacts.

(** The premium theorem on the sample table: 900 is the premium of the second
    Gold row, 750 is the premium of none. *)
Lemma premium_change_fills_tenure_and_cse_witness :
  (get "tenure"
     (handlePremiumChange Samples.sample_table Samples.acme_gold_form "900"
        Samples.acme_gold_form) = Some "2" /\
   get "cseName"
     (handlePremiumChange Samples.sample_table Samples.acme_gold_form "900"
        Samples.acme_gold_form) = Some "Meena") /\
  (get "tenure"
     (handlePremiumChange Samples.sample_table Samples.acme_gold_form "750"
        Samples.acme_gold_form) = Some "" /\
   get "cseName"
     (handlePremiumChange Samples.sample_table Samples.acme_gold_form "750"
        Samples.acme_gold_form) = Some "").
Proof.
  split.
  - destruct (premium_change_fills_tenure_and_cse Samples.sample_table
                Samples.acme_gold_form Samples.acme_gold_form "900"
                "Acme" "Gold" Samples.acme_products Samples.gold_rows
                eq_refl eq_refl eq_refl eq_refl) as (_ & Hhit & _ & _).
    apply (Hhit 900 1%nat (mkPremiumEntry 900 2 "Meena"));
      [reflexivity..|].
    intros [|j] e' Hj Hl; [|lia]. injection Hl as <-. discriminate.
  - destruct (premium_change_fills_tenure_and_cse Samples.sample_table
                Samples.acme_gold_form Samples.acme_gold_form "750"
                "Acme" "Gold" Samples.acme_products Samples.gold_rows
                eq_refl eq_refl eq_refl eq_refl) as (_ & _ & Hmiss & _).
    apply Hmiss. intros e He. simpl in He.
    destruct He as [<-|[<-|[]]]; discriminate.
Defined.

(** The dropdown theorem on the sample table. *)
Lemma dropdown_options_follow_table_witness :
  map value (productOptions Samples.sample_table Samples.acme_gold_form)
  = ["Gold"; "Silver"] /\
  map value (premiumOptions Samples.sample_table Samples.acme_gold_form)
  = [500; 900] /\
  productOptions Samples.sample_table emptyForm = [].
Proof.
  destruct (dropdown_options_follow_table Samples.sample_table
              Samples.acme_gold_form) as (_ & _ & Hsel).
  destruct (Hsel "Acme" Samples.acme_products eq_refl ltac:(discriminate)
              eq_refl) as (Hprod & _ & Hprem).
  destruct (Hprem "Gold" Samples.gold_rows eq_refl ltac:(discriminate)
              eq_refl) as (Hval & _).
  split; [exact Hprod|]. split; [exact Hval|].
  destruct (dropdown_options_follow_table Samples.sample_table emptyForm)
    as (Hnone & _).
  exact (proj1 (Hnone eq_refl)).
Defined.

End FormFacts.

(** ** The form: the premium options as rendered *)

Module RenderFacts.
Import JS Types DataEntryForm ObjFacts FormFacts.

Lemma inherited_In (k : string) :
  inherited k = true <-> In k Object_prototype_names.
Proof.
  unfold inherited. rewrite existsb_exists. split.
  - intros (x & Hx & E). apply String.eqb_eq in E. now subst.
  - intros H. exists k. split; [assumption|apply String.eqb_refl].
Qed.

Lemma inherited_nonempty (k : string) : inherited k = true -> k <> "".
Proof. intros H ->. discriminate H. Qed.

Lemma truthy_nonempty (s : string) : s <> "" -> truthy (Some s) = true.
Proof. intros H. simpl. now destruct (String.eqb_spec s ""). Qed.

Section RenderCases.
Variable builtin_read : string -> string -> BuiltinRead.
Variable partnerData : PartnerData.

(** Outside the inherited names the render gives what the table lookup
    gives: whenever it does not throw, its options are [premiumOptions]. *)
Lemma premiumOptions_rendered_inr (formData : PolicyData)
    (opts : list (SelectOption Z)) :
  premiumOptions_rendered builtin_read partnerData formData = inr opts ->
  opts = premiumOptions partnerData formData.
Proof.
  unfold premiumOptions_rendered, premiumOptions, lookup_product, get_member.
  destruct (truthy (get "partnerName" formData)
            && truthy (get "productDetails" formData)); [|congruence].
  destruct (get (prop_key (get "partnerName" formData)) partnerData)
    as [products|].
  - destruct (get (prop_key (get "productDetails" formData)) products)
      as [rows|]; [simpl; congruence|].
    destruct (inherited _); simpl; congruence.
  - destruct (inherited _); [|simpl; congruence].
    destruct (builtin_read _ _); simpl; congruence.
Qed.

(** C5 (where the render throws).  With a partner of the table selected and
    a product name that the partner's entry does not have but every object
    inherits (such as [constructor]), building the premium options does not
    give the empty list: calling [map] on the inherited member raises a
    TypeError.  The same happens for an inherited partner name whenever the
    product name reads as a truthy value or a restricted property of that
    member. *)
Theorem premium_options_throw_on_inherited_names (formData : PolicyData)
    (partner product : string) :
  get "partnerName" formData = Some partner ->
  get "productDetails" formData = Some product ->
  (forall products : Obj (list PremiumEntry),
     get partner partnerData = Some products -> partner <> "" ->
     get product products = None -> In product Object_prototype_names ->
     exists msg : string,
       premiumOptions_rendered builtin_read partnerData formData
       = inl (TypeError msg)) /\
  (get partner partnerData = None -> In partner Object_prototype_names ->
   product <> "" -> builtin_read partner product <> ReadFalsy ->
   exists msg : string,
     premiumOptions_rendered builtin_read partnerData formData
     = inl (TypeError msg)).
Proof.
  intros Hp Hd. unfold premiumOptions_rendered, get_member.
  rewrite Hp, Hd. cbn [prop_key]. split.
  - intros products Ht Hne Hnone Hin.
    rewrite (truthy_nonempty partner Hne).
    rewrite (truthy_nonempty product)
      by (apply inherited_nonempty; now apply inherited_In).
    cbn [andb]. rewrite Ht, Hnone.
    rewrite (proj2 (inherited_In product) Hin). eauto.
  - intros Ht Hin Hne Hread.
    rewrite (truthy_nonempty partner)
      by (apply inherited_nonempty; now apply inherited_In).
    rewrite (truthy_nonempty product Hne). cbn [andb].
    rewrite Ht, (proj2 (inherited_In partner) Hin).
    destruct (builtin_read partner product); [congruence|eauto..].
Qed.

(** In every other form state the render gives the options of the table
    entry: nothing when partner or product is unselected or unknown, the
    entry's rows when both are found. *)
Lemma premium_options_outside_inherited_names (formData : PolicyData) :
  inherited (prop_key (get "partnerName" formData)) = false ->
  inherited (prop_key (get "productDetails" formData)) = false ->
  premiumOptions_rendered builtin_read partnerData formData
  = inr (premiumOptions partnerData formData).
Proof.
  intros Hp Hd.
  unfold premiumOptions_rendered, premiumOptions, lookup_product, get_member.
  destruct (truthy (get "partnerName" formData)
            && truthy (get "productDetails" formData)); [|reflexivity].
  rewrite Hp, Hd.
  destruct (get (prop_key (get "partnerName" formData)) partnerData)
    as [products|]; [|reflexivity].
  now destruct (get (prop_key (get "productDetails" formData)) products).
Qed.

End RenderCases.

(** Two forms that autofill can leave: a partner of the sample table with
    the product name [constructor], and the partner name [constructor] with
    the product name [name] on a host where functions have a name. *)
Lemma premium_options_throw_on_inherited_names_witness :
  let host := fun a b : string =>
    if String.eqb b "name" then ReadTruthy else ReadFalsy in
  (exists msg : string,
     premiumOptions_rendered host Samples.sample_table
       (set "productDetails" "constructor"
          (set "partnerName" "Acme" emptyForm))
     = inl (TypeError msg)) /\
  (exists msg : string,
     premiumOptions_rendered host Samples.sample_table
       (set "productDetails" "name"
          (set "partnerName" "constructor" emptyForm))
     = inl (TypeError msg)).
Proof.
  intros host. split.
  - refine (proj1 (premium_options_throw_on_inherited_names host
                     Samples.sample_table
                     (set "productDetails" "constructor"
                        (set "partnerName" "Acme" emptyForm))
                     "Acme" "constructor" eq_refl eq_refl)
              Samples.acme_products eq_refl _ eq_refl _).
    + discriminate.
    + simpl. tauto.
  - refine (proj2 (premium_options_throw_on_inherited_names host
                     Samples.sample_table
                     (set "productDetails" "name"
                        (set "partnerName" "constructor" emptyForm))
                     "constructor" "name" eq_refl eq_refl)
              eq_refl _ _ _).
    + simpl. tauto.
    + discriminate.
    + discriminate.
Defined.

End RenderFacts.

(** ** Saving, submitting and autofill *)

Module AppFacts.
Import JS Types DataEntryForm App ObjFacts.

Lemma strict_eq_true (a b : option string) : strict_eq a b = true <-> a = b.
Proof.
  destruct a as [x|], b as [y|]; simpl; split; try congruence.
  - intros H. apply String.eqb_eq in H. congruence.
  - intros H. injection H as ->. apply String.eqb_refl.
Qed.

Lemma same_id_true (p q : PolicyData) :
  same_id p q = true <-> get "id" p = get "id" q.
Proof. apply strict_eq_true. Qed.

Lemma same_id_false (p q : PolicyData) :
  same_id p q = false <-> get "id" p <> get "id" q.
Proof.
  rewrite <- same_id_true. destruct (same_id p q); split; congruence.
Qed.

Lemma some_true {A} (f : A -> bool) (l : list A) :
  some f l = true <-> exists x, In x l /\ f x = true.
Proof. apply existsb_exists. Qed.

Lemma some_false {A} (f : A -> bool) (l : list A) :
  some f l = false <-> forall x, In x l -> f x = false.
Proof.
  unfold some. induction l as [|y l IH]; simpl.
  - split; [intros _ x []|reflexivity].
  - rewrite orb_false_iff, IH. split.
    + intros [Hy Hl] x [<-|Hx]; auto.
    + intros H. split; [apply H; now left|]. intros x Hx. apply H. now right.
Qed.

Lemma save_policies_present (policyData : PolicyData) (prev : list PolicyData) :
  (exists p, In p prev /\ get "id" p = get "id" policyData) ->
  save_policies policyData prev
  = map (fun p => if same_id p policyData then policyData else p) prev.
Proof.
  intros (p & Hin & Hid). unfold save_policies.
  replace (some _ prev) with true; [reflexivity|].
  symmetry. apply some_true. exists p. split; [assumption|].
  now apply same_id_true.
Qed.

Lemma save_policies_absent (policyData : PolicyData) (prev : list PolicyData) :
  (forall p, In p prev -> get "id" p <> get "id" policyData) ->
  save_policies policyData prev = prev ++ [policyData].
Proof.
  intros Hnone. unfold save_policies.
  replace (some _ prev) with false; [reflexivity|].
  symmetry. apply some_false. intros p Hp. apply same_id_false. auto.
Qed.

Lemma save_policies_unique (policyData : PolicyData) (prev : list PolicyData)
    (i : nat) (p : PolicyData) :
  prev !! i = Some p -> get "id" p = get "id" policyData ->
  (forall (j : nat) (q : PolicyData),
     prev !! j = Some q -> get "id" q = get "id" policyData -> j = i) ->
  save_policies policyData prev = <[i := policyData]> prev.
Proof.
  intros Hi Hid Huniq. rewrite save_policies_present.
  2:{ exists p. split; [|assumption]. eapply list_elem_of_In, list_elem_of_lookup_2, Hi. }
  apply list_eq. intros j. rewrite list_lookup_fmap.
  destruct (decide (j = i)) as [->|Hne].
  - rewrite list_lookup_insert_eq by (eapply lookup_lt_Some, Hi).
    rewrite Hi. simpl. apply same_id_true in Hid. now rewrite Hid.
  - rewrite list_lookup_insert_ne by congruence.
    destruct (prev !! j) as [q|] eqn:Hj; [|reflexivity]. simpl.
    destruct (same_id q policyData) eqn:E; [|reflexivity].
    apply same_id_true in E. now specialize (Huniq j q Hj E).
Qed.

(** Ids stay pairwise distinct under saving. *)
Lemma save_policies_NoDup_ids (policyData : PolicyData) (prev : list PolicyData) :
  NoDup (map (get "id") prev) ->
  NoDup (map (get "id") (save_policies policyData prev)).
Proof.
  intros Hnd. unfold save_policies. destruct (some _ prev) eqn:E.
  - rewrite map_map.
    erewrite map_ext; [exact Hnd|]. intros q. simpl.
    destruct (same_id q policyData) eqn:Eq; [|reflexivity].
    symmetry. now apply same_id_true.
  - rewrite map_app. simpl. apply NoDup_app. split; [assumption|].
    split; [|apply NoDup_singleton].
    intros x Hx Hx'. apply list_elem_of_singleton in Hx' as ->.
    apply list_elem_of_In, in_map_iff in Hx as (q & Hq & Hin).
    pose proof (proj1 (some_false _ _) E q Hin) as Hf.
    apply same_id_false in Hf. congruence.
Qed.

(** C6.  Saving replaces the stored list by an upsert of the record.  If a
    stored record has the record's id, the new list has the same length and
    at every position holds the saved record where the old one had that id
    and the old record otherwise; when that id is stored at one position
    only, the new list is the old one with that position overwritten.  If
    no stored record has that id, the new list is the old one with the
    record added at the end. *)
Theorem save_policy_is_upsert (policyData : PolicyData) (st : State) :
  let prev := policies st in
  let next := policies (handleSavePolicy policyData st) in
  ((exists p, In p prev /\ get "id" p = get "id" policyData) ->
   length next = length prev /\
   forall (i : nat) (p : PolicyData),
     prev !! i = Some p ->
     (get "id" p = get "id" policyData -> next !! i = Some policyData) /\
     (get "id" p <> get "id" policyData -> next !! i = Some p)) /\
  (forall (i : nat) (p : PolicyData),
     prev !! i = Some p -> get "id" p = get "id" policyData ->
     (forall (j : nat) (q : PolicyData),
        prev !! j = Some q -> get "id" q = get "id" policyData -> j = i) ->
     next = <[i := policyData]> prev) /\
  ((forall p, In p prev -> get "id" p <> get "id" policyData) ->
   next = prev ++ [policyData]).
Proof.
  simpl. split; [|split].
  - intros Hex. rewrite (save_policies_present _ _ Hex).
    split; [apply length_map|].
    intros i p Hi. rewrite list_lookup_fmap, Hi. simpl. split; intros Hid.
    + apply same_id_true in Hid. now rewrite Hid.
    + apply same_id_false in Hid. now rewrite Hid.
  - apply save_policies_unique.
  - apply save_policies_absent.
Qed.

(** The upsert on two stored records: an edit of the first, then a new one. *)
Lemma save_policy_is_upsert_witness :
  let st := mkState [Samples.record "a" "Asha"; Samples.record "b" "Bala"]
              None emptyForm false "" 0 in
  policies (handleSavePolicy (Samples.record "a" "Anil") st)
  = [Samples.record "a" "Anil"; Samples.record "b" "Bala"] /\
  policies (handleSavePolicy (Samples.record "c" "Chitra") st)
  = [Samples.record "a" "Asha"; Samples.record "b" "Bala";
     Samples.record "c" "Chitra"].
Proof.
  intros st. split.
  - destruct (save_policy_is_upsert (Samples.record "a" "Anil") st)
      as (_ & Hone & _).
    cbv zeta in Hone.
    rewrite (Hone 0%nat (Samples.record "a" "Asha") eq_refl eq_refl);
      [reflexivity|].
    intros [|[|j]] q Hq Hid; [reflexivity|..].
    + injection Hq as <-. discriminate Hid.
    + discriminate Hq.
  - destruct (save_policy_is_upsert (Samples.record "c" "Chitra") st)
      as (_ & _ & Hmiss).
    apply Hmiss. intros p [<-|[<-|[]]]; discriminate.
Defined.

Lemma matches_shape_nonempty (shape s : string) :
  shape <> "" -> matches_shape shape s = true -> s <> "".
Proof.
  destruct shape; [congruence|]. destruct s; simpl; [discriminate|congruence].
Qed.

Lemma ISO_timestamp_nonempty (s : string) :
  is_ISO_timestamp s = true -> s <> "".
Proof. apply matches_shape_nonempty. discriminate. Qed.

Lemma has_id_Some (p : PolicyData) :
  has_id p = true <-> exists i, get "id" p = Some i /\ i <> "".
Proof.
  unfold has_id. split.
  - apply truthy_Some.
  - intros (i & -> & Hi). simpl. now destruct (String.eqb_spec i "").
Qed.

Lemma In_save_policies (policyData : PolicyData) (prev : list PolicyData) :
  In policyData (save_policies policyData prev).
Proof.
  unfold save_policies. destruct (some _ prev) eqn:E.
  - apply some_true in E as (p & Hp & Hid). apply in_map_iff.
    exists p. now rewrite Hid.
  - apply in_or_app. right. now left.
Qed.

Lemma Forall_save_policies (P : PolicyData -> Prop) (policyData : PolicyData)
    (prev : list PolicyData) :
  P policyData -> Forall P prev -> Forall P (save_policies policyData prev).
Proof.
  intros Hp Hprev. unfold save_policies. destruct (some _ prev).
  - apply Forall_fmap. eapply Forall_impl; [exact Hprev|].
    intros p Hq. simpl. now destruct (same_id p policyData).
  - apply Forall_app. split; [assumption|]. now apply Forall_cons_2.
Qed.

(** C10.  The record that submit hands to save has a non-empty id: the
    form's id when that is non-empty, else the timestamp just taken; its
    other properties are the form's.  Saving it puts it in the stored list,
    and if every stored record had a non-empty id before, every stored
    record has one after. *)
Theorem submitted_record_has_id (formData : PolicyData) (now : string)
    (st : State) :
  is_ISO_timestamp now = true ->
  let saved := fst (handleSubmit formData now) in
  (exists i : string,
     get "id" saved = Some i /\ i <> "" /\
     (forall old : string,
        get "id" formData = Some old -> old <> "" -> i = old) /\
     (get "id" formData = None \/ get "id" formData = Some "" -> i = now)) /\
  (forall k : string, k <> "id" -> get k saved = get k formData) /\
  In saved (policies (handleSavePolicy saved st)) /\
  (Forall (fun p => has_id p = true) (policies st) ->
   Forall (fun p => has_id p = true) (policies (handleSavePolicy saved st))).
Proof.
  intros Hnow. simpl.
  assert (Hid : exists i : string,
     get "id" (set "id" (submit_id formData now) formData) = Some i /\
     i <> "" /\
     (forall old : string,
        get "id" formData = Some old -> old <> "" -> i = old) /\
     (get "id" formData = None \/ get "id" formData = Some "" -> i = now)).
  { exists (submit_id formData now). rewrite get_set_eq.
    split; [reflexivity|]. unfold submit_id.
    destruct (truthy (get "id" formData)) eqn:E.
    - apply truthy_Some in E as (s & Hs & Hne). rewrite Hs. simpl.
      split; [assumption|]. split; [congruence|].
      intros [H|H]; congruence.
    - split; [now apply ISO_timestamp_nonempty|]. split; [|reflexivity].
      intros old Hold Hne. rewrite Hold in E. simpl in E.
      now destruct (String.eqb_spec old ""). }
  split; [exact Hid|]. split; [|split].
  - intros k Hk. now apply get_set_ne.
  - apply In_save_policies.
  - apply Forall_save_policies. apply has_id_Some.
    destruct Hid as (i & Hi & Hne & _). eauto.
Qed.

(** Submitting a fresh form and a form under edit at a concrete time. *)
Lemma submitted_record_has_id_witness :
  get "id" (fst (handleSubmit emptyForm Samples.sample_time))
  = Some Samples.sample_time /\
  get "id" (fst (handleSubmit (Samples.record "a" "Asha") Samples.sample_time))
  = Some "a".
Proof.
  split.
  - destruct (submitted_record_has_id emptyForm Samples.sample_time
                (mkState [] None emptyForm false "" 0) eq_refl)
      as ((i & Hi & _ & _ & Hfresh) & _).
    cbv zeta in Hi. rewrite Hi. f_equal. apply Hfresh. now right.
  - destruct (submitted_record_has_id (Samples.record "a" "Asha")
                Samples.sample_time
                (mkState [] None emptyForm false "" 0) eq_refl)
      as ((i & Hi & _ & Hkept & _) & _).
    cbv zeta in Hi. rewrite Hi. f_equal.
    apply Hkept; [reflexivity|discriminate].
Defined.

(** C7.  When the autofill attempt fails (no API key, the request is
    rejected, or the response text does not parse), the handler ends with
    the fixed error message and the loading flag off; the stored list, the
    policy under edit and the form data are exactly as before, and at most
    one request was sent. *)
Theorem autofill_failure_only_reports (env : Env) (st : State) (file : string) :
  selected_file env = Some file ->
  (truthy (API_KEY env) = false \/
   (exists e, generateContent env = Throw e) \/
   (exists text e, generateContent env = Ok text /\
                   JSON_parse env text = Throw e)) ->
  let st' := handleAutofill env st in
  error st' = "Failed to extract data. Please check the image or try again." /\
  isLoading st' = false /\
  policies st' = policies st /\
  currentPolicy st' = currentPolicy st /\
  formData st' = formData st /\
  (requests st' <= S (requests st))%nat.
Proof.
  intros Hfile Hfail. unfold handleAutofill, try_extract. rewrite Hfile.
  destruct Hfail as [Hkey|[(e & Hreq)|(text & e & Hreq & Hparse)]].
  - rewrite Hkey. simpl. repeat split; lia.
  - rewrite Hreq. destruct (truthy (API_KEY env)); simpl; repeat split; lia.
  - rewrite Hreq. simpl bind. rewrite Hparse.
    destruct (truthy (API_KEY env)); simpl; repeat split; lia.
Qed.

(** The three kinds of failure, from a state with one stored record. *)
Lemma autofill_failure_only_reports_witness :
  let st := mkState [Samples.record "a" "Asha"] None emptyForm false "" 0 in
  let parse := fun text : string =>
    if String.eqb text "{}" then Ok []
    else Throw (Error "Unexpected token") in
  policies (handleAutofill (mkEnv (Some "scan.png") None (Ok "{}") parse) st)
  = policies st /\
  formData (handleAutofill
              (mkEnv (Some "scan.png") (Some "key")
                 (Throw (Error "503")) parse) st)
  = formData st /\
  currentPolicy (handleAutofill
                   (mkEnv (Some "scan.png") (Some "key") (Ok "oops") parse) st)
  = currentPolicy st.
Proof.
  intros st parse. split; [|split].
  - refine (proj1 (proj2 (proj2 (autofill_failure_only_reports
      (mkEnv (Some "scan.png") None (Ok "{}") parse) st "scan.png"
      eq_refl _)))).
    left. reflexivity.
  - refine (proj1 (proj2 (proj2 (proj2 (proj2 (autofill_failure_only_reports
      (mkEnv (Some "scan.png") (Some "key") (Throw (Error "503")) parse)
      st "scan.png" eq_refl _)))))).
    right. left. eexists. reflexivity.
  - refine (proj1 (proj2 (proj2 (proj2 (autofill_failure_only_reports
      (mkEnv (Some "scan.png") (Some "key") (Ok "oops") parse)
      st "scan.png" eq_refl _))))).
    right. right. exists "oops", (Error "Unexpected token").
    split; reflexivity.
Defined.

(** For contrast, a successful extraction does load the extracted data. *)
Lemma autofill_success_applies (env : Env) (st : State) (file text : string)
    (parsedData : Obj string) :
  selected_file env = Some file ->
  truthy (API_KEY env) = true ->
  generateContent env = Ok text ->
  JSON_parse env text = Ok parsedData ->
  let st' := handleAutofill env st in
  currentPolicy st' = Some (autofill_policy parsedData (currentPolicy st)) /\
  formData st' = autofill_policy parsedData (currentPolicy st) /\
  error st' = "" /\ isLoading st' = false /\ policies st' = policies st.
Proof.
  intros Hfile Hkey Hreq Hparse. unfold handleAutofill, try_extract.
  rewrite Hfile, Hkey, Hreq. simpl bind. rewrite Hparse. simpl.
  repeat split.
Qed.

End AppFacts.

(** ** The table: search *)

Module TableFacts.
Import JS Types DataEntryForm DataTable ObjFacts.

Lemma append_String (c : ascii) (s t : string) :
  String c s +:+ t = String c (s +:+ t).
Proof. reflexivity. Qed.

Lemma append_empty (t : string) : "" +:+ t = t.
Proof. reflexivity. Qed.

Lemma prefix_append (t s : string) :
  String.prefix t s = true <-> exists post, s = t +:+ post.
Proof.
  revert s. induction t as [|c t IH]; intros s.
  - split; [intros _; now exists s|intros _; now destruct s].
  - destruct s as [|d s]; simpl.
    + split; [discriminate|intros [post H]; discriminate].
    + destruct (ascii_dec c d) as [->|Hne].
      * rewrite IH. split; intros [post H]; exists post.
        -- rewrite append_String. now rewrite H.
        -- rewrite append_String in H. now injection H.
      * split; [discriminate|]. intros [post H].
        rewrite append_String in H. congruence.
Qed.

(** [includes] decides whether the term occurs as a contiguous substring. *)
Lemma includes_substring (s t : string) :
  includes s t = true <-> exists pre post, s = pre +:+ t +:+ post.
Proof.
  induction s as [|c s IH]; cbn [includes].
  - destruct (String.prefix t "") eqn:E.
    + split; [intros _|reflexivity].
      apply prefix_append in E as [post E]. now exists "", post.
    + split; [discriminate|]. intros (pre & post & H).
      destruct pre; [|discriminate]. rewrite append_empty in H.
      assert (String.prefix t "" = true) by (apply prefix_append; eauto).
      congruence.
  - destruct (String.prefix t (String c s)) eqn:E.
    + split; [intros _|reflexivity].
      apply prefix_append in E as [post E]. now exists "", post.
    + rewrite IH. split.
      * intros (pre & post & ->). now exists (String c pre), post.
      * intros (pre & post & H). destruct pre as [|c' pre].
        -- rewrite append_empty in H.
           assert (String.prefix t (String c s) = true)
             by (apply prefix_append; eauto).
           congruence.
        -- rewrite append_String in H. injection H as -> ->. eauto.
Qed.

Lemma filter_sublist {A} (f : A -> bool) (l : list A) :
  sublist (List.filter f l) l.
Proof.
  induction l as [|x l IH]; simpl; [constructor|].
  destruct (f x); now constructor.
Qed.

Lemma filter_greatest {A} (f : A -> bool) (l k : list A) :
  sublist k l -> Forall (fun x => f x = true) k -> sublist k (List.filter f l).
Proof.
  induction 1 as [|x k l Hsub IH|x k l Hsub IH]; intros Hall; simpl.
  - constructor.
  - apply Forall_cons_1 in Hall as [Hx Hk]. rewrite Hx.
    constructor. now apply IH.
  - destruct (f x); [constructor|]; now apply IH.
Qed.

Section SearchFacts.
Variable toLowerCase : string -> string.

Lemma matches_search_has_match (searchTerm : string) (item : PolicyData) :
  matches_search toLowerCase searchTerm item = true <->
  has_match toLowerCase searchTerm item.
Proof.
  unfold matches_search, some, has_match. rewrite existsb_exists. split.
  - intros (val & Hin & Hinc). simpl in Hinc.
    apply includes_substring in Hinc as (pre & post & H). eauto 6.
  - intros (val & pre & post & Hin & H). exists val. split; [assumption|].
    simpl. apply includes_substring. eauto.
Qed.

(** C1.  The filtered list is a subsequence of the data (same records, same
    relative order), each of its records has a value whose lowercased text
    contains the lowercased search term, and it is the greatest such
    subsequence: every subsequence of the data made of matching records is
    a subsequence of it.  In particular a record is kept exactly when it is
    in the data and matches. *)
Theorem search_keeps_exactly_matching_records
    (data : list PolicyData) (searchTerm : string) :
  let result := filteredData toLowerCase data searchTerm in
  sublist result data /\
  Forall (has_match toLowerCase searchTerm) result /\
  (forall k : list PolicyData,
     sublist k data -> Forall (has_match toLowerCase searchTerm) k -> sublist k result) /\
  (forall item : PolicyData,
     In item result <-> In item data /\ has_match toLowerCase searchTerm item).
Proof.
  unfold filteredData. cbv zeta. split; [apply filter_sublist|].
  split; [|split].
  - apply List.Forall_forall. intros item Hin.
    apply filter_In in Hin as [_ H]. now apply matches_search_has_match.
  - intros k Hsub Hall. apply filter_greatest; [assumption|].
    eapply Forall_impl; [exact Hall|].
    intros item. apply matches_search_has_match.
  - intros item. rewrite filter_In, matches_search_has_match. reflexivity.
Qed.

End SearchFacts.

(** The search at a concrete list, with a lowering of the ASCII capitals. *)
Lemma search_keeps_exactly_matching_records_witness :
  let lower := Samples.ascii_toLowerCase in
  let data := [Samples.record "a" "Asha"; Samples.record "b" "Bala";
               Samples.record "c" "Natasha"] in
  In (Samples.record "c" "Natasha") (filteredData lower data "ASH") /\
  ~ In (Samples.record "b" "Bala") (filteredData lower data "ASH").
Proof.
  intros lower data.
  destruct (search_keeps_exactly_matching_records lower data "ASH")
    as (_ & _ & _ & Hiff).
  split.
  - apply Hiff. split; [simpl; tauto|].
    exists "Natasha", "nat", "a". split; [simpl; tauto|reflexivity].
  - intros Hin. apply Hiff in Hin as [_ Hm].
    apply matches_search_has_match in Hm. discriminate Hm.
Defined.

(** ** The table: sort *)

Lemma str_lt_asym (x y : string) : str_lt x y = true -> str_lt y x = false.
Proof.
  unfold str_lt, String.ltb. rewrite (String.compare_antisym x y).
  destruct (String.compare y x); simpl; congruence.
Qed.

Lemma str_le_trans (x y z : string) :
  str_lt y x = false -> str_lt z y = false -> str_lt z x = false.
Proof.
  unfold str_lt, String.ltb.
  rewrite (String.compare_antisym y x), (String.compare_antisym z y),
    (String.compare_antisym z x).
  destruct (String.compare x y) eqn:Exy; simpl; try discriminate.
  - apply String.compare_eq_iff in Exy as ->. auto.
  - intros _. destruct (String.compare y z) eqn:Eyz; simpl; try discriminate.
    + apply String.compare_eq_iff in Eyz as <-. now rewrite Exy.
    + intros _.
      assert (Hxz : String.compare x z = Lt).
      { apply String_as_OT.cmp_lt.
        apply String_as_OT.lt_trans with y; now apply String_as_OT.cmp_lt. }
      now rewrite Hxz.
Qed.

Section SortFacts.
Context {A : Type} (cmp : A -> A -> Z) (P : A -> Prop) (R : A -> A -> Prop).
Hypothesis R_not_after : forall x y, P x -> P y -> cmp x y <= 0 -> R x y.
Hypothesis R_after : forall x y, P x -> P y -> 0 < cmp x y -> R y x.
Hypothesis R_trans : forall x y z, P x -> P y -> P z -> R x y -> R y z -> R x z.

Lemma sort_insert_Permutation (x : A) (l : list A) :
  sort_insert cmp x l ≡ₚ x :: l.
Proof using Type.
  induction l as [|y l IH]; simpl; [reflexivity|].
  destruct (0 <? cmp x y); [|reflexivity].
  rewrite IH. apply perm_swap.
Qed.

Lemma sort_Permutation (l : list A) : sort cmp l ≡ₚ l.
Proof using Type.
  induction l as [|x l IH]; simpl; [reflexivity|].
  rewrite sort_insert_Permutation. now constructor.
Qed.

Lemma sort_insert_StronglySorted (x : A) (l : list A) :
  P x -> Forall P l -> StronglySorted R l ->
  StronglySorted R (sort_insert cmp x l).
Proof using R_not_after R_after R_trans.
  intros Hx. induction l as [|y l IH]; intros Hl Hs; simpl.
  - repeat constructor.
  - apply Forall_cons_1 in Hl as [Hy Hl].
    apply StronglySorted_inv in Hs as [Hs Hyl].
    destruct (Z.ltb_spec 0 (cmp x y)) as [Hgt|Hle].
    + constructor; [now apply IH|].
      rewrite sort_insert_Permutation. constructor; [|assumption].
      now apply R_after.
    + assert (Hxy : R x y) by now apply R_not_after.
      constructor; [now constructor|]. constructor; [assumption|].
      apply List.Forall_forall. intros z Hz.
      apply R_trans with y; try assumption.
      * eapply List.Forall_forall in Hl; eauto.
      * eapply List.Forall_forall in Hyl; eauto.
Qed.

Lemma sort_StronglySorted (l : list A) :
  Forall P l -> StronglySorted R (sort cmp l).
Proof using R_not_after R_after R_trans.
  induction l as [|x l IH]; intros Hl; simpl; [constructor|].
  apply Forall_cons_1 in Hl as [Hx Hl].
  apply sort_insert_StronglySorted; [assumption| |now apply IH].
  now rewrite sort_Permutation.
Qed.
End SortFacts.

Lemma compare_by_not_after (cfg : SortConfig) (a b : PolicyData) :
  is_Some (get (key cfg) a) -> is_Some (get (key cfg) b) ->
  compare_by cfg a b <= 0 -> in_order cfg a b.
Proof.
  intros [x Hx] [y Hy]. unfold compare_by, in_order. rewrite Hx, Hy. simpl.
  intros Hc. exists x, y. split; [reflexivity|]. split; [reflexivity|].
  destruct (direction cfg); simpl in Hc.
  - destruct (str_lt x y) eqn:E1; [now apply str_lt_asym|].
    destruct (str_lt y x); [lia|reflexivity].
  - destruct (str_lt x y); [lia|reflexivity].
Qed.

Lemma compare_by_after (cfg : SortConfig) (a b : PolicyData) :
  is_Some (get (key cfg) a) -> is_Some (get (key cfg) b) ->
  0 < compare_by cfg a b -> in_order cfg b a.
Proof.
  intros [x Hx] [y Hy]. unfold compare_by, in_order. rewrite Hx, Hy. simpl.
  intros Hc. exists y, x. split; [reflexivity|]. split; [reflexivity|].
  destruct (direction cfg); simpl in Hc.
  - destruct (str_lt x y); [lia|reflexivity].
  - destruct (str_lt x y) eqn:E1; [now apply str_lt_asym|].
    destruct (str_lt y x); lia.
Qed.

Lemma in_order_trans (cfg : SortConfig) (a b c : PolicyData) :
  in_order cfg a b -> in_order cfg b c -> in_order cfg a c.
Proof.
  unfold in_order. intros (x & y & Hx & Hy & Hxy) (y' & z & Hy' & Hz & Hyz).
  rewrite Hy in Hy'. injection Hy' as <-.
  exists x, z. split; [assumption|]. split; [assumption|].
  destruct (direction cfg).
  - now apply str_le_trans with y.
  - now apply str_le_trans with y.
Qed.

Lemma sortedData_sorted (filtered : list PolicyData) (cfg : SortConfig) :
  Forall (fun item => is_Some (get (key cfg) item)) filtered ->
  sortedData filtered (Some cfg) ≡ₚ filtered /\
  StronglySorted (in_order cfg) (sortedData filtered (Some cfg)).
Proof.
  intros Hkeys. split; [apply sort_Permutation|].
  apply (sort_StronglySorted (compare_by cfg)
           (fun item => is_Some (get (key cfg) item)) (in_order cfg)).
  - apply (compare_by_not_after cfg).
  - apply (compare_by_after cfg).
  - intros x y z _ _ _. apply in_order_trans.
  - exact Hkeys.
Qed.

Lemma well_typed_has_key (k : string) (item : PolicyData) :
  In k PolicyData_keys -> well_typed item -> is_Some (get k item).
Proof.
  intros Hk Hwt. unfold well_typed in Hwt.
  eapply List.Forall_forall in Hwt; eauto.
Qed.

Lemma well_typed_sample_record (id name : string) :
  well_typed (Samples.record id name).
Proof.
  unfold well_typed, PolicyData_keys.
  repeat (apply Forall_cons_2; [eexists; reflexivity|]). apply Forall_nil_2.
Qed.

(** C2.  For every filtered list and every sort configured on a key, the
    sorted list is a permutation of the filtered list; and when every
    record carries that key, as the records of the table do for its
    sortable columns, every record stands before every record after it in
    the order of the key's string values: never a larger before a smaller
    when ascending, never a smaller before a larger when descending.
    Requesting a sort on a key selects that key, descending exactly when
    the key was already sorted ascending and ascending in every other
    case. *)
Theorem sort_orders_by_key_and_request_toggles
    (filtered : list PolicyData) (k : string) (d : Direction)
    (requested : string) (sortConfig : option SortConfig) :
  let cfg := mkSortConfig k d in
  sortedData filtered (Some cfg) ≡ₚ filtered /\
  (Forall (fun item => is_Some (get k item)) filtered ->
   StronglySorted (in_order cfg) (sortedData filtered (Some cfg))) /\
  exists d' : Direction,
    requestSort requested sortConfig = Some (mkSortConfig requested d') /\
    (d' = descending <->
     sortConfig = Some (mkSortConfig requested ascending)) /\
    (d' = ascending <->
     sortConfig <> Some (mkSortConfig requested ascending)).
Proof.
  intros cfg. split; [apply sort_Permutation|]. split.
  - intros Hkeys. exact (proj2 (sortedData_sorted filtered cfg Hkeys)).
  - unfold requestSort. destruct sortConfig as [[k0 d0]|]; simpl.
    + destruct (String.eqb_spec k0 requested) as [->|Hne]; simpl.
      * destruct d0; simpl; eexists; (split; [reflexivity|]);
          split; split; congruence.
      * eexists; split; [reflexivity|]. split; split; congruence.
    + eexists; split; [reflexivity|]. split; split; congruence.
Qed.

(** Sorting three records by customer name, one of them without the
    optional codes, and a repeated request. *)
Lemma sort_orders_by_key_and_request_toggles_witness :
  let l := [Samples.record "1" "Bala";
            [("id", "2"); ("customerName", "Asha")];
            Samples.record "3" "Chitra"] in
  StronglySorted (in_order (mkSortConfig "customerName" descending))
    (sortedData l (Some (mkSortConfig "customerName" descending))) /\
  requestSort "premium" (Some (mkSortConfig "premium" ascending))
  = Some (mkSortConfig "premium" descending).
Proof.
  intros l.
  destruct (sort_orders_by_key_and_request_toggles l "customerName" descending
              "premium" (Some (mkSortConfig "premium" ascending)))
    as (_ & Hsorted & d' & Hreq & Hdesc & _).
  split.
  - apply Hsorted.
    repeat (apply Forall_cons_2; [eexists; reflexivity|]). apply Forall_nil_2.
  - rewrite Hreq. f_equal. f_equal. now apply Hdesc.
Defined.

(** ** The table: pagination *)

Lemma slice_lookup {A} (l : list A) (start stop : Z) (i : nat) :
  0 <= start -> start <= stop ->
  slice l start stop !! i
  = if decide (start + Z.of_nat i < stop)
    then l !! Z.to_nat (start + Z.of_nat i) else None.
Proof.
  intros H0 Hle. unfold slice.
  destruct (Z.ltb_spec start 0) as [?|_]; [lia|].
  destruct (Z.ltb_spec stop 0) as [?|_]; [lia|].
  rewrite lookup_take, lookup_drop.
  destruct (decide (i < _)%nat) as [Hi|Hi];
    destruct (decide (start + Z.of_nat i < stop)) as [Hs|Hs];
    try reflexivity.
  - f_equal. lia.
  - lia.
  - symmetry. apply lookup_ge_None. lia.
Qed.

Lemma slice_length {A} (l : list A) (start stop : Z) :
  0 <= start -> start <= stop ->
  Z.of_nat (length (slice l start stop)) <= stop - start.
Proof.
  intros H0 Hle. unfold slice.
  destruct (Z.ltb_spec start 0) as [?|_]; [lia|].
  destruct (Z.ltb_spec stop 0) as [?|_]; [lia|].
  rewrite length_take, length_drop. lia.
Qed.

Lemma Math_ceil_div_floor (a b : Z) : Math_ceil_div a b = - ((- a) / b).
Proof.
  unfold Math_ceil_div, Qceiling. f_equal. rewrite Zdiv_Qdiv.
  apply Qfloor_comp. rewrite inject_Z_opp. unfold Qdiv. ring.
Qed.

Lemma Math_ceil_div_bounds (a b : Z) :
  0 < b ->
  b * (Math_ceil_div a b - 1) < a <= b * Math_ceil_div a b.
Proof.
  intros Hb. rewrite Math_ceil_div_floor.
  pose proof (Z.div_mod (- a) b ltac:(lia)) as Hdm.
  pose proof (Z.mod_pos_bound (- a) b Hb) as Hm.
  nia.
Qed.

(** C3.  For a page number from 1 and one of the page sizes 10, 20 and 50,
    the page holds at position [i] the record at position [(p-1)*n + i] of
    the sorted list while that index is below [p*n], and nothing from there
    on; so it has at most [n] rows.  The page count is the least integer
    whose product with [n] reaches the list length. *)
Theorem page_is_slice_and_count_is_ceiling
    (sorted : list PolicyData) (p n : Z) :
  1 <= p -> In n page_sizes ->
  let page := paginatedData sorted p n in
  (forall i : nat,
     (p - 1) * n + Z.of_nat i < p * n ->
     page !! i = sorted !! Z.to_nat ((p - 1) * n + Z.of_nat i)) /\
  (forall i : nat, p * n <= (p - 1) * n + Z.of_nat i -> page !! i = None) /\
  Z.of_nat (length page) <= n /\
  n * (totalPages sorted n - 1) < Z.of_nat (length sorted)
  <= n * totalPages sorted n.
Proof.
  intros Hp Hn page. subst page. unfold paginatedData, totalPages.
  assert (Hpos : 0 < n).
  { simpl in Hn. destruct Hn as [<-|[<-|[<-|[]]]]; lia. }
  assert (H0 : 0 <= (p - 1) * n) by nia.
  assert (Hle : (p - 1) * n <= (p - 1) * n + n) by lia.
  split; [|split; [|split]].
  - intros i Hi. rewrite slice_lookup by assumption.
    destruct (decide _) as [_|Hc]; [reflexivity|lia].
  - intros i Hi. rewrite slice_lookup by assumption.
    destruct (decide _) as [Hc|_]; [lia|reflexivity].
  - pose proof (slice_length sorted _ _ H0 Hle). lia.
  - now apply Math_ceil_div_bounds.
Qed.

(** The second page of 23 records at 10 rows per page. *)
Lemma page_is_slice_and_count_is_ceiling_witness :
  let sorted := map (fun i => Samples.record (pretty i) "Asha") (seqZ 0 23) in
  paginatedData sorted 2 10 !! 3%nat = sorted !! 13%nat /\
  paginatedData sorted 2 10 !! 10%nat = None /\
  totalPages sorted 10 = 3.
Proof.
  intros sorted.
  destruct (page_is_slice_and_count_is_ceiling sorted 2 10 ltac:(lia)
              ltac:(simpl; tauto)) as (Hin & Hout & _ & Hcount).
  split; [apply (Hin 3%nat); lia|].
  split; [apply (Hout 10%nat); lia|].
  cbv zeta in Hcount.
  replace (Z.of_nat (length sorted)) with 23 in Hcount by reflexivity.
  lia.
Defined.

(** ** The table: CSV export *)

(** What the export produces for a list with a first record: the names of
    that record's properties, then for each record the quoted values read
    under those names, in that order. *)
Lemma exportToCSV_nonempty (first : PolicyData) (rest : list PolicyData) :
  exportToCSV (first :: rest)
  = inr (join LF
           (map Some
              (csv_header (Object_keys first)
               :: map (csv_row (Object_keys first)) (first :: rest)))).
Proof. reflexivity. Qed.

Lemma count_LF_append (s t : string) :
  count_LF (s +:+ t) = (count_LF s + count_LF t)%nat.
Proof.
  induction s as [|c s IH]; [reflexivity|].
  rewrite append_String. simpl. rewrite IH. lia.
Qed.

Lemma JSON_quote_char_no_LF (c : ascii) : count_LF (JSON_quote_char c) = 0%nat.
Proof.
  destruct c as [[] [] [] [] [] [] [] []]; vm_compute; reflexivity.
Qed.

Lemma JSON_quote_body_no_LF (s : string) :
  count_LF (JSON_quote_body s) = 0%nat.
Proof.
  induction s as [|c s IH]; [reflexivity|]. simpl.
  now rewrite count_LF_append, JSON_quote_char_no_LF, IH.
Qed.

Lemma join_comma_no_LF (cells : list (option string)) :
  Forall (fun cell => count_LF (default "" cell) = 0%nat) cells ->
  count_LF (join "," cells) = 0%nat.
Proof.
  induction cells as [|x [|y cells] IH]; intros Hall; [reflexivity|..].
  - apply Forall_cons_1 in Hall as [Hx _]. exact Hx.
  - apply Forall_cons_1 in Hall as [Hx Hrest].
    change (join "," (x :: y :: cells))
      with (default "" x +:+ "," +:+ join "," (y :: cells)).
    rewrite !count_LF_append, Hx, (IH Hrest). reflexivity.
Qed.

Lemma csv_row_no_LF (headers : list string) (row : PolicyData) :
  count_LF (csv_row headers row) = 0%nat.
Proof.
  unfold csv_row. apply join_comma_no_LF. apply Forall_fmap.
  apply List.Forall_forall. intros h _. simpl.
  destruct (get h row) as [v|]; [|reflexivity]. simpl.
  rewrite !count_LF_append, JSON_quote_body_no_LF. reflexivity.
Qed.

Lemma csv_header_no_LF (headers : list string) :
  Forall (fun h => count_LF h = 0%nat) headers ->
  count_LF (csv_header headers) = 0%nat.
Proof.
  intros Hall. unfold csv_header. apply join_comma_no_LF.
  apply Forall_fmap. eapply Forall_impl; [exact Hall|]. now intros h Hh.
Qed.

Lemma join_LF_lines (lines : list string) :
  Forall (fun line => count_LF line = 0%nat) lines ->
  count_LF (join LF (map Some lines)) = pred (length lines).
Proof.
  induction lines as [|x [|y lines] IH]; intros Hall; [reflexivity|..].
  - apply Forall_cons_1 in Hall as [Hx _]. exact Hx.
  - apply Forall_cons_1 in Hall as [Hx Hrest].
    change (join LF (map Some (x :: y :: lines)))
      with (x +:+ LF +:+ join LF (map Some (y :: lines))).
    rewrite !count_LF_append, Hx, (IH Hrest). reflexivity.
Qed.

(** For a list with a first record whose property names contain no line
    break, the text has exactly one line break per record: a header line
    and then one line for each record. *)
Lemma exportToCSV_one_line_per_record (first : PolicyData)
    (rest : list PolicyData) :
  Forall (fun h => count_LF h = 0%nat) (Object_keys first) ->
  exists csvContent : string,
    exportToCSV (first :: rest) = inr csvContent /\
    count_LF csvContent = length (first :: rest).
Proof.
  intros Hkeys. eexists. split; [apply exportToCSV_nonempty|].
  rewrite join_LF_lines.
  - simpl. now rewrite length_map.
  - apply Forall_cons_2; [now apply csv_header_no_LF|].
    apply Forall_fmap, List.Forall_forall. intros row _.
    apply csv_row_no_LF.
Qed.

(** C8 (at the empty list).  Exporting the empty list does not produce CSV
    text: reading the property names of the missing first record raises a
    TypeError, so not even a header line is written. *)
Theorem exportToCSV_empty_list_throws :
  exists msg : string, exportToCSV [] = inl (TypeError msg).
Proof. eexists. reflexivity. Qed.

End TableFacts.

(* ================================================================== *)
(** * Part III: further properties of the handlers *)
(* ================================================================== *)

(** ** The stored list: delete, edit and their interplay with save *)

Module StoreFacts.
Import JS Types DataEntryForm App ObjFacts AppFacts.

Lemma keeps_other_id (id : string) (p : PolicyData) :
  negb (strict_eq (get "id" p) (Some id)) = true <-> get "id" p <> Some id.
Proof.
  rewrite negb_true_iff. split.
  - intros H E. apply strict_eq_true in E. congruence.
  - intros H. destruct (strict_eq _ _) eqn:E; [|reflexivity].
    apply strict_eq_true in E. contradiction.
Qed.

Lemma In_delete_policies (id : string) (prev : list PolicyData) (p : PolicyData) :
  In p (delete_policies id prev) <-> In p prev /\ get "id" p <> Some id.
Proof. unfold delete_policies. now rewrite filter_In, keeps_other_id. Qed.

Lemma delete_policies_absent (id : string) (prev : list PolicyData) :
  (forall p, In p prev -> get "id" p <> Some id) ->
  delete_policies id prev = prev.
Proof.
  unfold delete_policies. induction prev as [|q prev IH]; intros H; simpl.
  - reflexivity.
  - rewrite (proj2 (keeps_other_id id q)) by (apply H; now left).
    f_equal. apply IH. intros p Hp. apply H. now right.
Qed.

(** X1.  A confirmed delete keeps, in their order, exactly the records whose
    id differs from the given one: the result is the greatest subsequence
    of the stored list free of that id.  A declined delete and a delete of
    an id that is not stored leave the list as it was. *)
Theorem delete_removes_exactly_that_id (id : string) (st : State) :
  let prev := policies st in
  let next := policies (handleDeletePolicy true id st) in
  sublist next prev /\
  (forall p, In p next <-> In p prev /\ get "id" p <> Some id) /\
  (forall k : list PolicyData,
     sublist k prev -> Forall (fun p => get "id" p <> Some id) k ->
     sublist k next) /\
  handleDeletePolicy false id st = st /\
  ((forall p, In p prev -> get "id" p <> Some id) -> next = prev).
Proof.
  simpl. split; [apply TableFacts.filter_sublist|].
  split; [apply In_delete_policies|]. split; [|split].
  - intros k Hk Hall. apply TableFacts.filter_greatest; [assumption|].
    eapply Forall_impl; [exact Hall|]. intros p. apply keeps_other_id.
  - reflexivity.
  - apply delete_policies_absent.
Qed.

(** Deleting one of three records, and an id that is not stored. *)
Lemma delete_removes_exactly_that_id_witness :
  let st := mkState [Samples.record "a" "Asha"; Samples.record "b" "Bala";
                     Samples.record "c" "Chitra"] None emptyForm false "" 0 in
  ~ In (Samples.record "b" "Bala") (policies (handleDeletePolicy true "b" st)) /\
  policies (handleDeletePolicy true "z" st) = policies st.
Proof.
  intros st. split.
  - destruct (delete_removes_exactly_that_id "b" st) as (_ & Hin & _).
    intros H. apply Hin in H as [_ H]. now apply H.
  - destruct (delete_removes_exactly_that_id "z" st) as (_ & _ & _ & _ & Hno).
    apply Hno. intros p [<-|[<-|[<-|[]]]]; discriminate.
Defined.

Lemma delete_save_policies (id : string) (policyData : PolicyData)
    (prev : list PolicyData) :
  get "id" policyData = Some id ->
  delete_policies id (save_policies policyData prev) = delete_policies id prev.
Proof.
  intros Hid. unfold save_policies. destruct (some _ prev) eqn:E.
  - clear E. unfold delete_policies.
    induction prev as [|q prev IH]; [reflexivity|]. simpl.
    destruct (same_id q policyData) eqn:Eq.
    + apply same_id_true in Eq. rewrite Hid, Eq, Hid.
      replace (strict_eq (Some id) (Some id)) with true
        by (symmetry; now apply strict_eq_true).
      simpl. exact IH.
    + destruct (negb _); [f_equal|]; exact IH.
  - unfold delete_policies. rewrite List.filter_app. simpl. rewrite Hid.
    replace (strict_eq (Some id) (Some id)) with true
      by (symmetry; now apply strict_eq_true).
    simpl. apply app_nil_r.
Qed.

(** X2.  Deleting the id of a record just saved removes it again whatever
    the save did: the result is the old list without that id.  So saving a
    record under an id that was not stored and then deleting that id gives
    back the old list. *)
Theorem delete_undoes_save_of_new_id (id : string) (policyData : PolicyData)
    (st : State) :
  get "id" policyData = Some id ->
  let prev := policies st in
  let next :=
    policies (handleDeletePolicy true id (handleSavePolicy policyData st)) in
  next = delete_policies id prev /\
  ((forall p, In p prev -> get "id" p <> Some id) -> next = prev).
Proof.
  intros Hid. simpl. rewrite (delete_save_policies id _ _ Hid).
  split; [reflexivity|]. apply delete_policies_absent.
Qed.

Lemma delete_undoes_save_of_new_id_witness :
  let st := mkState [Samples.record "a" "Asha"] None emptyForm false "" 0 in
  policies (handleDeletePolicy true "b"
              (handleSavePolicy (Samples.record "b" "Bala") st))
  = policies st.
Proof.
  intros st.
  destruct (delete_undoes_save_of_new_id "b" (Samples.record "b" "Bala") st
              eq_refl) as [_ Hfresh].
  apply Hfresh. intros p [<-|[]]. discriminate.
Defined.

(** X3.  Saving a record whose id was just deleted does not restore its
    place: the record is added at the end of what the delete left.  This
    is what happens when the record under edit is deleted from the table
    and the form is then submitted. *)
Theorem save_after_delete_appends (id : string) (policyData : PolicyData)
    (st : State) :
  get "id" policyData = Some id ->
  policies (handleSavePolicy policyData (handleDeletePolicy true id st))
  = delete_policies id (policies st) ++ [policyData].
Proof.
  intros Hid. simpl. apply save_policies_absent.
  intros p Hp. apply In_delete_policies in Hp as [_ Hp]. congruence.
Qed.

Lemma save_after_delete_appends_witness :
  let st := mkState [Samples.record "a" "Asha"; Samples.record "b" "Bala"]
              (Some (Samples.record "a" "Asha")) (Samples.record "a" "Asha")
              false "" 0 in
  policies (handleSavePolicy (Samples.record "a" "Asha")
              (handleDeletePolicy true "a" st))
  = [Samples.record "b" "Bala"; Samples.record "a" "Asha"].
Proof.
  intros st.
  exact (save_after_delete_appends "a" (Samples.record "a" "Asha") st eq_refl).
Defined.

Lemma save_policies_all_saved (policyData : PolicyData)
    (prev : list PolicyData) (q : PolicyData) :
  In q (save_policies policyData prev) ->
  get "id" q = get "id" policyData -> q = policyData.
Proof.
  unfold save_policies. destruct (some _ prev) eqn:E.
  - intros Hq Hid. apply in_map_iff in Hq as (p & Hp & _).
    destruct (same_id p policyData) eqn:Ep; [congruence|].
    apply same_id_false in Ep. congruence.
  - intros Hq Hid. apply in_app_or in Hq as [Hq|[<-|[]]]; [|reflexivity].
    pose proof (proj1 (some_false _ _) E q Hq) as Hf.
    apply same_id_false in Hf. contradiction.
Qed.

(** X4.  Saving the same record twice is the same as saving it once, and
    after a save the edit lookup under the record's id returns exactly the
    saved record. *)
Theorem save_twice_and_edit_lookup (policyData : PolicyData)
    (prev : list PolicyData) :
  save_policies policyData (save_policies policyData prev)
  = save_policies policyData prev /\
  (forall id : string,
     get "id" policyData = Some id ->
     policyToEdit id (save_policies policyData prev) = Some policyData).
Proof.
  split.
  - rewrite (save_policies_present policyData (save_policies policyData prev)).
    2:{ exists policyData. split; [apply In_save_policies|reflexivity]. }
    rewrite <- (map_id (save_policies policyData prev)) at 2.
    apply map_ext_in. intros q Hq.
    destruct (same_id q policyData) eqn:E; [|reflexivity].
    apply same_id_true in E. symmetry.
    now apply (save_policies_all_saved policyData prev).
  - intros id Hid. unfold policyToEdit, JS.find.
    pose proof (In_save_policies policyData prev) as Hin.
    pose proof (save_policies_all_saved policyData prev) as Hall.
    induction (save_policies policyData prev) as [|q l IH]; [destruct Hin|].
    simpl. destruct (strict_eq (get "id" q) (Some id)) eqn:E.
    + apply strict_eq_true in E. f_equal. apply Hall; [now left|congruence].
    + destruct Hin as [->|Hin].
      * rewrite Hid in E.
        assert (strict_eq (Some id) (Some id) = true) by now apply strict_eq_true.
        congruence.
      * apply IH; [assumption|]. intros q' Hq'. apply Hall. now right.
Qed.

Lemma save_twice_and_edit_lookup_witness :
  policyToEdit "b"
    (save_policies (Samples.record "b" "Bala") [Samples.record "a" "Asha"])
  = Some (Samples.record "b" "Bala").
Proof.
  exact (proj2 (save_twice_and_edit_lookup (Samples.record "b" "Bala")
                  [Samples.record "a" "Asha"]) "b" eq_refl).
Defined.

Lemma handleSubmit_has_id (formData : PolicyData) (now : string) :
  is_ISO_timestamp now = true ->
  has_id (fst (handleSubmit formData now)) = true.
Proof.
  intros Hnow. apply has_id_Some. simpl. exists (submit_id formData now).
  rewrite get_set_eq. split; [reflexivity|]. unfold submit_id.
  destruct (truthy (get "id" formData)) eqn:E.
  - apply truthy_Some in E as (s & -> & Hne). exact Hne.
  - now apply ISO_timestamp_nonempty.
Qed.

Lemma lookup_ids (l : list PolicyData) (i : nat) (p : PolicyData) :
  l !! i = Some p -> map (get "id") l !! i = Some (get "id" p).
Proof.
  revert i. induction l as [|q l IH]; intros [|i] H; try discriminate H.
  - now injection H as ->.
  - now apply IH.
Qed.

Lemma delete_policies_NoDup_ids (id : string) (prev : list PolicyData) :
  NoDup (map (get "id") prev) ->
  NoDup (map (get "id") (delete_policies id prev)).
Proof.
  intros Hnd. eapply sublist_NoDup; [exact Hnd|].
  apply fmap_sublist. apply TableFacts.filter_sublist.
Qed.

(** X5.  In every stored list that submitting and deleting can produce from
    the empty list, no two records share an id and every id is a non-empty
    string; so an id shown in the table names exactly one stored record. *)
Theorem reachable_ids_distinct_and_nonempty (l : list PolicyData) :
  reachable l ->
  NoDup (map (get "id") l) /\
  Forall (fun p => has_id p = true) l /\
  (forall (i j : nat) (p q : PolicyData),
     l !! i = Some p -> l !! j = Some q -> get "id" p = get "id" q -> i = j).
Proof.
  intros Hreach.
  assert (Hinv : NoDup (map (get "id") l) /\ Forall (fun p => has_id p = true) l).
  { induction Hreach as [|l formData now _ [IHn IHf] Hnow|l id _ [IHn IHf]|l _ _].
    - split; [apply NoDup_nil_2|apply Forall_nil_2].
    - split; [now apply save_policies_NoDup_ids|].
      apply Forall_save_policies; [|assumption].
      now apply handleSubmit_has_id.
    - split; [now apply delete_policies_NoDup_ids|].
      apply List.Forall_forall. intros p Hp.
      apply In_delete_policies in Hp as [Hp _].
      eapply List.Forall_forall in IHf; eauto.
    - split; [apply NoDup_nil_2|apply Forall_nil_2]. }
  destruct Hinv as [Hnd Hall]. split; [assumption|]. split; [assumption|].
  intros i j p q Hi Hj Hid.
  eapply NoDup_lookup; [exact Hnd|exact (lookup_ids _ _ _ Hi)|].
  rewrite Hid. exact (lookup_ids _ _ _ Hj).
Qed.

(** Two submissions and a delete. *)
Lemma reachable_ids_distinct_and_nonempty_witness :
  NoDup (map (get "id")
           (delete_policies "a"
              (save_policies
                 (fst (handleSubmit (Samples.record "a" "Asha")
                         Samples.sample_time))
                 (save_policies (fst (handleSubmit emptyForm Samples.sample_time))
                    [])))).
Proof.
  apply reachable_ids_distinct_and_nonempty.
  apply reach_delete. apply reach_submit; [|reflexivity].
  apply reach_submit; [|reflexivity]. apply reach_empty.
Defined.

(** X6.  Ids of new records are clock readings: when two new forms (forms
    without an id) are submitted at the same reading, the second record
    takes the place of the first.  The list is no longer than after the
    first submission and, unless the two records are equal, the first is
    gone. *)
Theorem same_clock_reading_overwrites (formA formB : PolicyData) (now : string)
    (prev : list PolicyData) :
  truthy (get "id" formA) = false ->
  truthy (get "id" formB) = false ->
  let recA := fst (handleSubmit formA now) in
  let recB := fst (handleSubmit formB now) in
  let after := save_policies recB (save_policies recA prev) in
  length after = length (save_policies recA prev) /\
  In recB after /\
  (recA <> recB -> ~ In recA after).
Proof.
  intros HA HB recA recB after.
  assert (Hid : get "id" recA = get "id" recB).
  { subst recA recB. simpl. rewrite !get_set_eq. unfold submit_id.
    now rewrite HA, HB. }
  subst after. split; [|split].
  - rewrite (save_policies_present recB (save_policies recA prev)).
    + apply length_map.
    + exists recA. split; [apply In_save_policies|assumption].
  - apply In_save_policies.
  - intros Hne Hin. apply Hne.
    now apply (save_policies_all_saved recB (save_policies recA prev)).
Qed.

Lemma same_clock_reading_overwrites_witness :
  ~ In (fst (handleSubmit (set "customerName" "Asha" emptyForm)
               Samples.sample_time))
       (save_policies
          (fst (handleSubmit (set "customerName" "Bala" emptyForm)
                  Samples.sample_time))
          (save_policies
             (fst (handleSubmit (set "customerName" "Asha" emptyForm)
                     Samples.sample_time)) [])).
Proof.
  apply (same_clock_reading_overwrites (set "customerName" "Asha" emptyForm)
           (set "customerName" "Bala" emptyForm) Samples.sample_time []
           eq_refl eq_refl).
  discriminate.
Defined.

Lemma set_same {V} (k : string) (v : V) (o : Obj V) :
  get k o = Some v -> set k v o = o.
Proof.
  induction o as [|[k0 v0] o IH]; simpl; [discriminate|].
  destruct (String.eqb k0 k); intros H.
  - now injection H as ->.
  - f_equal. now apply IH.
Qed.

Lemma find_Some_In {A} (f : A -> bool) (l : list A) (x : A) :
  JS.find f l = Some x -> In x l /\ f x = true.
Proof. apply List.find_some. Qed.

(** X7.  Opening a stored record for edit and submitting the form as
    loaded leaves the stored list exactly as it was, provided the record's
    id is a non-empty string and no other stored record has it. *)
Theorem edit_then_submit_unchanged (id now : string) (prev : list PolicyData)
    (p : PolicyData) :
  policyToEdit id prev = Some p ->
  id <> "" ->
  NoDup (map (get "id") prev) ->
  save_policies (fst (handleSubmit (load_currentData (Some p)) now)) prev = prev.
Proof.
  intros Hfind Hne Hnd.
  apply find_Some_In in Hfind as [Hin Hid]. apply strict_eq_true in Hid.
  simpl. unfold submit_id. rewrite Hid. simpl.
  destruct (String.eqb_spec id "") as [?|_]; [contradiction|]. simpl.
  rewrite (set_same "id" id p Hid).
  rewrite save_policies_present by (exists p; split; [assumption|reflexivity]).
  rewrite <- (map_id prev) at 2. apply map_ext_in. intros q Hq.
  destruct (same_id q p) eqn:E; [|reflexivity].
  apply same_id_true in E.
  apply list_elem_of_In, list_elem_of_lookup in Hin as [i Hi].
  apply list_elem_of_In, list_elem_of_lookup in Hq as [j Hj].
  assert (i = j) as ->.
  { eapply NoDup_lookup; [exact Hnd|exact (lookup_ids _ _ _ Hi)|].
    rewrite <- E. exact (lookup_ids _ _ _ Hj). }
  congruence.
Qed.

Lemma edit_then_submit_unchanged_witness :
  save_policies
    (fst (handleSubmit (load_currentData (Some (Samples.record "b" "Bala")))
            Samples.sample_time))
    [Samples.record "a" "Asha"; Samples.record "b" "Bala"]
  = [Samples.record "a" "Asha"; Samples.record "b" "Bala"].
Proof.
  apply (edit_then_submit_unchanged "b"); [reflexivity|discriminate|].
  apply NoDup_cons_2; [|apply NoDup_singleton].
  intros H. apply list_elem_of_singleton in H. discriminate H.
Defined.

End StoreFacts.

(** ** Autofill: merging the extracted data, and the image payload *)

Module AutofillFacts.
Import JS Types DataEntryForm App ObjFacts AppFacts.

Lemma get_None_not_key {V} (k : string) (o : Obj V) :
  get k o = None <-> ~ In k (Object_keys o).
Proof.
  induction o as [|[k0 v0] o IH]; simpl; [tauto|].
  destruct (String.eqb_spec k0 k) as [->|Hne].
  - split; [discriminate|]. intros H. exfalso. apply H. now left.
  - rewrite IH. tauto.
Qed.

(** Reading a property of [{ ...dst, ...src }]: [src] wins where it has the
    property. *)
Lemma get_spread {V} (k : string) (src dst : Obj V) :
  List.NoDup (Object_keys src) ->
  get k (spread src dst)
  = match get k src with Some v => Some v | None => get k dst end.
Proof.
  unfold spread. revert dst.
  induction src as [|[k0 v0] src IH]; intros dst Hnd; [reflexivity|].
  simpl in Hnd. apply List.NoDup_cons_iff in Hnd as [Hk0 Hnd].
  simpl. rewrite (IH _ Hnd).
  destruct (String.eqb_spec k0 k) as [->|Hne].
  - rewrite (proj2 (get_None_not_key k src) Hk0). apply get_set_eq.
  - destruct (get k src); [reflexivity|]. now apply get_set_ne.
Qed.

(** X8.  What autofill puts under edit, for extracted data with distinct
    property names: every extracted property except [id] takes the
    extracted value; every other property except [id] keeps the value of
    the record under edit, or of the six-property base object when nothing
    is under edit; and [id] is never taken from the extracted data: it
    stays the id of the record under edit, and is the empty string when
    there is none. *)
Theorem autofill_merges_but_keeps_id (data : Obj string)
    (prev : option PolicyData) :
  List.NoDup (Object_keys data) ->
  let merged := autofill_policy data prev in
  (forall k v : string,
     k <> "id" -> get k data = Some v -> get k merged = Some v) /\
  (forall k : string,
     k <> "id" -> get k data = None ->
     get k merged = get k (default autofill_base prev)) /\
  (forall (p : PolicyData) (i : string),
     prev = Some p -> get "id" p = Some i -> get "id" merged = Some i) /\
  (prev = None \/ (exists p, prev = Some p /\ get "id" p = None) ->
   get "id" merged = Some "").
Proof.
  intros Hnd merged. subst merged. unfold autofill_policy.
  split; [|split; [|split]].
  - intros k v Hk Hv. rewrite get_set_ne by congruence.
    now rewrite (get_spread k data _ Hnd), Hv.
  - intros k Hk Hv. rewrite get_set_ne by congruence.
    now rewrite (get_spread k data _ Hnd), Hv.
  - intros p i -> Hi. rewrite get_set_eq, Hi. simpl.
    now destruct (String.eqb_spec i "") as [->|_].
  - intros [->|(p & -> & Hp)]; rewrite get_set_eq; [reflexivity|].
    now rewrite Hp.
Qed.

(** Extracted data that carries an id of its own, over a record under edit. *)
Lemma autofill_merges_but_keeps_id_witness :
  let data := [("customerName", "Anil"); ("id", "forged")] in
  let merged := autofill_policy data (Some (Samples.record "a" "Asha")) in
  get "customerName" merged = Some "Anil" /\ get "id" merged = Some "a".
Proof.
  intros data merged.
  assert (Hnd : List.NoDup (Object_keys data)).
  { repeat constructor; simpl; intuition discriminate. }
  destruct (autofill_merges_but_keeps_id data
              (Some (Samples.record "a" "Asha")) Hnd) as (Hdata & _ & Hid & _).
  split.
  - apply Hdata; [discriminate|reflexivity].
  - apply (Hid (Samples.record "a" "Asha")); reflexivity.
Defined.

(** Once the image has been read, the click is [handleAutofill]. *)
Lemma handleAutofill_click_read (url : string) (env : Env) (st : State) :
  handleAutofill_click (reader_dataURL url) env st = handleAutofill env st.
Proof.
  unfold handleAutofill_click, handleAutofill, try_extract.
  destruct (selected_file env); [|reflexivity].
  now destruct (truthy (API_KEY env)).
Qed.

(** X9.  Whatever the file input, the reader, the environment and the AI
    service answer, one click on autofill never changes the stored list and
    sends at most one request, and a request is sent only with a file
    selected, an API key present and the image read.  With a file selected
    the loading flag is off at the end when the key is missing or the image
    was read; but when the key is present and the read fails, the handler
    never resumes: the flag stays on, no message is shown and no request is
    sent.  Without a file nothing but the error message changes. *)
Theorem autofill_click_effects (r : ReaderResult) (env : Env) (st : State) :
  let st' := handleAutofill_click r env st in
  policies st' = policies st /\
  (requests st' <= S (requests st))%nat /\
  (requests st' <> requests st ->
   selected_file env <> None /\ truthy (API_KEY env) = true /\
   exists url, r = reader_dataURL url) /\
  (selected_file env <> None ->
   truthy (API_KEY env) = false \/ (exists url, r = reader_dataURL url) ->
   isLoading st' = false) /\
  (selected_file env <> None -> truthy (API_KEY env) = true ->
   r = reader_null ->
   st' = set_error "" (set_isLoading true st)) /\
  (selected_file env = None ->
   st' = set_error "Please select an image file first." st).
Proof.
  unfold handleAutofill_click, imageFileToGenerativePart.
  destruct (selected_file env) as [file|]; simpl.
  - destruct (truthy (API_KEY env)); simpl.
    + destruct r as [url|]; simpl.
      * destruct (bind (generateContent env) (JSON_parse env)); simpl;
          repeat split; try lia; try congruence; eauto.
      * repeat split; try lia; try congruence.
        intros _ [H|[url H]]; congruence.
    + repeat split; try lia; congruence.
  - repeat split; try lia; congruence.
Qed.

Lemma autofill_click_effects_witness :
  let st := mkState [Samples.record "a" "Asha"] None emptyForm false "" 0 in
  let env := mkEnv (Some "scan.png") (Some "key")
               (Ok "{}") (fun _ => Ok [("customerName", "Anil")]) in
  isLoading (handleAutofill_click (reader_dataURL "data:image/png;base64,AAAA")
               env st) = false /\
  isLoading (handleAutofill_click reader_null env st) = true /\
  handleAutofill_click reader_null
    (mkEnv None (Some "key") (Ok "{}") (fun _ => Ok [])) st
  = set_error "Please select an image file first." st.
Proof.
  intros st env. split; [|split].
  - destruct (autofill_click_effects
                (reader_dataURL "data:image/png;base64,AAAA") env st)
      as (_ & _ & _ & Hload & _).
    apply Hload; [discriminate|]. right. eauto.
  - destruct (autofill_click_effects reader_null env st)
      as (_ & _ & _ & _ & Hstuck & _).
    rewrite Hstuck; [reflexivity|discriminate|reflexivity|reflexivity].
  - destruct (autofill_click_effects reader_null
                (mkEnv None (Some "key") (Ok "{}") (fun _ => Ok [])) st)
      as (_ & _ & _ & _ & _ & Hnone).
    now apply Hnone.
Defined.

Lemma split_on_no_sep (sep : ascii) (s : string) :
  ~ In sep (chars s) -> split_on sep s = [s].
Proof.
  induction s as [|c s IH]; intros H; [reflexivity|]. simpl in *.
  destruct (Ascii.eqb_spec c sep) as [->|_]; [tauto|].
  rewrite IH by tauto. reflexivity.
Qed.

Lemma split_on_first (sep : ascii) (s t : string) :
  ~ In sep (chars s) ->
  split_on sep (s +:+ String sep t) = s :: split_on sep t.
Proof.
  induction s as [|c s IH]; intros H.
  - simpl. now rewrite Ascii.eqb_refl.
  - simpl in H. change (String c s +:+ String sep t)
      with (String c (s +:+ String sep t)).
    simpl. destruct (Ascii.eqb_spec c sep) as [->|_]; [tauto|].
    rewrite IH by tauto. reflexivity.
Qed.

(** X10.  From a data URL, that is a header without a comma, a comma and a
    payload without a comma, the image step keeps exactly the payload; from
    a text without any comma it gets nothing ([undefined]). *)
Theorem dataURL_payload (header payload : string) :
  ~ In ","%char (chars header) ->
  (~ In ","%char (chars payload) ->
   base64_of_dataURL (header +:+ String "," payload) = Some payload) /\
  base64_of_dataURL header = None.
Proof.
  intros Hh. unfold base64_of_dataURL. split.
  - intros Hp. rewrite split_on_first by assumption.
    now rewrite split_on_no_sep by assumption.
  - now rewrite split_on_no_sep by assumption.
Qed.

Lemma dataURL_payload_witness :
  base64_of_dataURL "data:image/png;base64,iVBORw0KGgo=" = Some "iVBORw0KGgo=".
Proof.
  refine (proj1 (dataURL_payload "data:image/png;base64" "iVBORw0KGgo=" _) _);
    simpl; intuition discriminate.
Defined.

End AutofillFacts.

(** ** The form: what the dropdowns offer and what choosing does *)

Module CascadeFlow.
Import JS Types DataEntryForm FormElements ObjFacts FormFacts.

Lemma sign_of_digit_start (c : ascii) (r : string) :
  digit_of c <> None ->
  match String c r with
  | String "-" r' => (-1, r')
  | String "+" r' => (1, r')
  | _ => (1, String c r)
  end = (1, String c r).
Proof.
  intros H.
  destruct c as [[] [] [] [] [] [] [] []];
    first [reflexivity | exfalso; apply H; reflexivity].
Qed.

Lemma digit_not_whitespace (c : ascii) :
  digit_of c <> None -> is_whitespace c = false.
Proof.
  unfold digit_of, is_whitespace. intros H.
  destruct (N.leb_spec 48 (N_of_ascii c)); [|now elim H].
  destruct (N.leb_spec (N_of_ascii c) 57); [|now elim H].
  destruct (N.leb_spec 9 (N_of_ascii c)), (N.leb_spec (N_of_ascii c) 13),
    (N.eqb_spec (N_of_ascii c) 32), (N.eqb_spec (N_of_ascii c) 160);
    simpl; try reflexivity; lia.
Qed.

Lemma parseInt_digit_start (c : ascii) (r : string) :
  digit_of c <> None ->
  parseInt (String c r) = Some (parse_digits (String c r) 0).
Proof.
  intros H. unfold parseInt. cbn [trim_start].
  rewrite (digit_not_whitespace c H), (sign_of_digit_start c r H).
  destruct (digit_of c); [|contradiction]. f_equal. apply Z.mul_1_l.
Qed.

Lemma parseInt_minus_digit (c : ascii) (r : string) :
  digit_of c <> None ->
  parseInt (String "-" (String c r)) = Some (- parse_digits (String c r) 0).
Proof.
  intros H. unfold parseInt. cbn [trim_start].
  change (is_whitespace "-") with false. cbv iota beta.
  destruct (digit_of c); [|contradiction]. f_equal; try lia.
Qed.

Lemma digit_of_pretty_N_char (m : N) :
  (m < 10)%N -> digit_of (pretty_N_char m) = Some (Z.of_N m).
Proof.
  intros H.
  assert (m = 0 \/ m = 1 \/ m = 2 \/ m = 3 \/ m = 4 \/ m = 5 \/ m = 6 \/
          m = 7 \/ m = 8 \/ m = 9)%N as Hm by lia.
  repeat (destruct Hm as [->|Hm]; [reflexivity|]). now subst m.
Qed.

Lemma all_digits_app (d e : string) :
  all_digits d = true -> all_digits e = true -> all_digits (d +:+ e) = true.
Proof.
  intros Hd He. induction d as [|c d IH]; [exact He|].
  change (String c d +:+ e) with (String c (d +:+ e)).
  unfold all_digits in *. simpl in *.
  apply andb_true_iff in Hd as [Hc Hd]. rewrite Hc. simpl. now apply IH.
Qed.

Lemma parse_digits_app (d s : string) (acc : Z) :
  all_digits d = true ->
  parse_digits (d +:+ s) acc = parse_digits s (parse_digits d acc).
Proof.
  revert acc. induction d as [|c d IH]; intros acc Hd; [reflexivity|].
  change (String c d +:+ s) with (String c (d +:+ s)).
  unfold all_digits in Hd. simpl in Hd. apply andb_true_iff in Hd as [Hc Hd].
  simpl. destruct (digit_of c); [|discriminate]. now apply IH.
Qed.

Lemma append_assoc (a b c : string) : (a +:+ b) +:+ c = a +:+ (b +:+ c).
Proof.
  induction a as [|x a IH]; [reflexivity|].
  rewrite !TableFacts.append_String. now rewrite IH.
Qed.

(** The decimal digits that [pretty] writes for a natural number. *)
Lemma pretty_N_go_digits (x : N) :
  exists d : string,
    all_digits d = true /\
    (forall s, pretty_N_go x s = d +:+ s) /\
    parse_digits d 0 = Z.of_N x /\
    ((0 < x)%N -> d <> "").
Proof.
  induction (N.lt_wf_0 x) as [x _ IH].
  destruct (N.eq_dec x 0%N) as [->|Hx].
  - exists "". repeat split; try reflexivity. lia.
  - assert (Hpos : (0 < x)%N) by lia.
    destruct (IH (x / 10)%N) as (d & Hd & Hgo & Hval & _).
    { apply N.div_lt; lia. }
    exists (d +:+ String (pretty_N_char (x mod 10)) "").
    assert (Hc : digit_of (pretty_N_char (x mod 10)) = Some (Z.of_N (x mod 10))).
    { apply digit_of_pretty_N_char. apply N.mod_lt. lia. }
    split; [|split; [|split]].
    + apply all_digits_app; [assumption|].
      unfold all_digits. simpl. now rewrite Hc.
    + intros s. rewrite pretty_N_go_step by assumption.
      rewrite Hgo. now rewrite append_assoc.
    + rewrite parse_digits_app by assumption. rewrite Hval. simpl.
      rewrite Hc. rewrite N2Z.inj_div, N2Z.inj_mod.
      pose proof (Z.div_mod (Z.of_N x) 10 ltac:(lia)). simpl Z.of_N. lia.
    + intros _. now destruct d.
Qed.

Lemma digits_start (d : string) :
  all_digits d = true -> d <> "" ->
  exists c r, d = String c r /\ digit_of c <> None.
Proof.
  destruct d as [|c r]; [congruence|]. intros H _. exists c, r.
  split; [reflexivity|]. unfold all_digits in H. simpl in H.
  destruct (digit_of c); [discriminate|discriminate H].
Qed.

Lemma append_empty_r (s : string) : s +:+ "" = s.
Proof.
  induction s as [|c s IH]; [reflexivity|].
  rewrite TableFacts.append_String. now rewrite IH.
Qed.

(** Reading back the decimal text of an integer gives the integer. *)
Lemma parseInt_Number_toString (n : Z) :
  parseInt (Number_toString n) = Some n.
Proof.
  unfold Number_toString, pretty, pretty_Z.
  destruct n as [|p|p].
  - reflexivity.
  - unfold pretty, pretty_positive, pretty, pretty_N.
    destruct (decide (N.pos p = 0%N)) as [?|_]; [discriminate|].
    destruct (pretty_N_go_digits (N.pos p)) as (d & Hd & Hgo & Hval & Hne).
    rewrite Hgo, append_empty_r.
    destruct (digits_start d Hd (Hne ltac:(lia))) as (c & r & -> & Hc).
    rewrite parseInt_digit_start by assumption. now rewrite Hval.
  - unfold pretty, pretty_positive, pretty, pretty_N.
    destruct (decide (N.pos p = 0%N)) as [?|_]; [discriminate|].
    destruct (pretty_N_go_digits (N.pos p)) as (d & Hd & Hgo & Hval & Hne).
    rewrite Hgo, append_empty_r.
    destruct (digits_start d Hd (Hne ltac:(lia))) as (c & r & -> & Hc).
    rewrite TableFacts.append_String, TableFacts.append_empty.
    rewrite parseInt_minus_digit by assumption. now rewrite Hval.
Qed.

Section CascadeFlowFacts.
Variable partnerData : PartnerData.

Lemma premiumOptions_values (formData : PolicyData) (v : string) :
  In v (map (fun opt => Number_toString (value opt))
          (premiumOptions partnerData formData)) ->
  exists rows e,
    lookup_product partnerData formData = Some rows /\
    In e rows /\ Number_toString (Premium e) = v.
Proof.
  unfold premiumOptions.
  destruct (truthy (get "partnerName" formData)
            && truthy (get "productDetails" formData)); [|intros []].
  rewrite map_map. simpl. intros Hin.
  apply in_map_iff in Hin as (e & Hv & He).
  destruct (lookup_product partnerData formData) as [rows|]; [|destruct He].
  exists rows, e. auto.
Qed.

(** X11.  Whatever value the premium dropdown can report, choosing it never
    leaves tenure and CSE name half-filled.  The placeholder's empty value
    blanks premium, tenure and CSE name.  The value of an offered option,
    which is the decimal text of a row's premium, is read back to that
    premium, so tenure and CSE name are filled from a row of the selected
    table entry that has exactly this premium. *)
Theorem offered_premium_always_fills (formData prev : PolicyData) (v : string) :
  In v (select_values Number_toString (premiumOptions partnerData formData)) ->
  let next := handlePremiumChange partnerData formData v prev in
  get "premium" next = Some v /\
  (v = "" -> get "tenure" next = Some "" /\ get "cseName" next = Some "") /\
  (v <> "" ->
   exists rows e,
     lookup_product partnerData formData = Some rows /\
     In e rows /\ Number_toString (Premium e) = v /\
     get "tenure" next = Some (Number_toString (Tenure e)) /\
     get "cseName" next = Some (CSE_Name e)).
Proof.
  intros Hin next. subst next. unfold handlePremiumChange.
  split; [destruct (find_premium _ _); now get_set|]. split.
  - intros ->. change (parseInt "") with (@None Z).
    replace (find_premium (lookup_product partnerData formData) None)
      with (@None PremiumEntry); [now get_set|].
    unfold find_premium. destruct (lookup_product _ _) as [rows|]; [|reflexivity].
    symmetry. now apply find_absent.
  - intros Hne. destruct Hin as [Hin|Hin]; [congruence|].
    apply premiumOptions_values in Hin as (rows & e0 & Hrows & He0 & Hv).
    subst v. rewrite parseInt_Number_toString, Hrows. simpl.
    destruct (JS.find (fun p => Premium p =? Premium e0) rows) as [e|] eqn:Hfind.
    + apply List.find_some in Hfind as [He Heq]. apply Z.eqb_eq in Heq.
      exists rows, e. rewrite Heq. repeat split; try assumption; now get_set.
    + pose proof (List.find_none _ _ Hfind e0 He0) as Hno.
      simpl in Hno. rewrite Z.eqb_refl in Hno. discriminate.
Qed.

(** X12.  After a change of partner the premium dropdown offers nothing
    until a product is chosen, and the product dropdown offers the products
    of the new partner: none for the empty choice or a partner the table
    does not have. *)
Theorem partner_change_resets_dropdowns (choice : string) (prev : PolicyData) :
  let next := handlePartnerChange partner_select_name choice prev in
  premiumOptions partnerData next = [] /\
  (choice = "" \/ get choice partnerData = None ->
   productOptions partnerData next = []) /\
  (forall products : Obj (list PremiumEntry),
     choice <> "" -> get choice partnerData = Some products ->
     map value (productOptions partnerData next) = Object_keys products).
Proof.
  intros next.
  assert (Hpn : get "partnerName" next = Some choice)
    by (subst next; unfold handlePartnerChange, partner_select_name; now get_set).
  assert (Hpd : get "productDetails" next = Some "")
    by (subst next; unfold handlePartnerChange, partner_select_name; now get_set).
  unfold premiumOptions, productOptions. rewrite Hpn, Hpd. simpl.
  split; [now rewrite andb_false_r|]. split.
  - intros [->|Hnone]; [reflexivity|]. rewrite Hnone.
    now destruct (negb _).
  - intros products Hne Hsome. rewrite Hsome.
    destruct (String.eqb_spec choice "") as [?|_]; [contradiction|]. simpl.
    rewrite map_map. simpl. apply map_id.
Qed.

End CascadeFlowFacts.

Lemma offered_premium_always_fills_witness :
  get "cseName"
    (handlePremiumChange Samples.sample_table Samples.acme_gold_form "500"
       Samples.acme_gold_form) <> Some "".
Proof.
  destruct (offered_premium_always_fills Samples.sample_table
              Samples.acme_gold_form Samples.acme_gold_form "500")
    as (_ & _ & Hfill).
  { simpl. tauto. }
  destruct (Hfill ltac:(discriminate)) as (rows & e & Hrows & He & _ & _ & Hcse).
  rewrite Hcse. injection Hrows as <-.
  destruct He as [<-|[<-|[]]]; discriminate.
Defined.

Lemma partner_change_resets_dropdowns_witness :
  map value
    (productOptions Samples.sample_table
       (handlePartnerChange partner_select_name "Zenith" Samples.acme_gold_form))
  = ["Basic"] /\
  premiumOptions Samples.sample_table
    (handlePartnerChange partner_select_name "Zenith" Samples.acme_gold_form)
  = [].
Proof.
  destruct (partner_change_resets_dropdowns Samples.sample_table "Zenith"
              Samples.acme_gold_form) as (Hprem & _ & Hprod).
  split; [|exact Hprem].
  apply (Hprod [("Basic", [mkPremiumEntry 120 3 "Kiran"])]);
    [discriminate|reflexivity].
Defined.

End CascadeFlow.

(** ** The table: pages, search and sort revisited *)

Module PagingFacts.
Import JS Types DataEntryForm DataTable ObjFacts TableFacts.

Lemma slice_take_drop {A} (l : list A) (start stop : Z) :
  0 <= start -> start <= stop ->
  slice l start stop = take (Z.to_nat (stop - start)) (drop (Z.to_nat start) l).
Proof.
  intros H0 Hle. apply list_eq. intros i.
  rewrite slice_lookup by assumption.
  rewrite lookup_take, lookup_drop.
  destruct (decide (start + Z.of_nat i < stop)),
    (decide (i < Z.to_nat (stop - start))%nat); try lia; [|reflexivity].
  f_equal. lia.
Qed.

Lemma page_take_drop (l : list PolicyData) (p : nat) (n : Z) :
  0 < n ->
  paginatedData l (Z.of_nat (S p)) n
  = take (Z.to_nat n) (drop (p * Z.to_nat n) l).
Proof.
  intros Hn. unfold paginatedData. rewrite slice_take_drop by nia.
  f_equal; [f_equal; lia|f_equal; nia].
Qed.

Lemma pages_concat (l : list PolicyData) (n : Z) (k : nat) :
  0 < n ->
  concat (map (fun p : nat => paginatedData l (Z.of_nat p) n) (seq 1 k))
  = take (k * Z.to_nat n) l.
Proof.
  intros Hn. induction k as [|k IH]; [reflexivity|].
  rewrite seq_S, map_app, concat_app, IH. simpl.
  rewrite app_nil_r, page_take_drop by assumption.
  rewrite take_take_drop. f_equal. lia.
Qed.

(** X14.  For a positive page size the pages 1 to [totalPages], one after
    the other, are the sorted list: every record is shown on exactly one
    page, in order. *)
Theorem pages_partition_the_list (sorted : list PolicyData) (n : Z) :
  0 < n ->
  concat (map (fun p : nat => paginatedData sorted (Z.of_nat p) n)
            (seq 1 (Z.to_nat (totalPages sorted n))))
  = sorted.
Proof.
  intros Hn. rewrite pages_concat by assumption.
  apply take_ge. unfold totalPages.
  pose proof (Math_ceil_div_bounds (Z.of_nat (length sorted)) n Hn). nia.
Qed.

Lemma pages_partition_the_list_witness :
  let sorted := map (fun i => Samples.record (pretty i) "Asha") (seqZ 0 5) in
  paginatedData sorted 1 2 ++ paginatedData sorted 2 2 ++ paginatedData sorted 3 2
  = sorted.
Proof.
  intros sorted.
  pose proof (pages_partition_the_list sorted 2 ltac:(lia)) as H.
  replace (Z.to_nat (totalPages sorted 2)) with 3%nat in H by reflexivity.
  change (paginatedData sorted 1 2 ++ paginatedData sorted 2 2
          ++ paginatedData sorted 3 2 ++ [] = sorted) in H.
  now rewrite app_nil_r in H.
Defined.

(** X15.  For a positive page size and a page number from 1, the page
    shows at least one row exactly when the number is at most
    [totalPages]; a stale page number beyond the last page shows nothing. *)
Theorem page_nonempty_iff_in_range (sorted : list PolicyData) (p n : Z) :
  0 < n -> 1 <= p ->
  (paginatedData sorted p n <> [] <-> p <= totalPages sorted n).
Proof.
  intros Hn Hp. unfold totalPages.
  pose proof (Math_ceil_div_bounds (Z.of_nat (length sorted)) n Hn) as Hb.
  replace p with (Z.of_nat (S (Z.to_nat (p - 1)))) at 1 by lia.
  rewrite page_take_drop by assumption.
  rewrite <- length_zero_iff_nil, length_take, length_drop. split.
  - intros Hlen. nia.
  - intros Hle. nia.
Qed.

Lemma page_nonempty_iff_in_range_witness :
  paginatedData [Samples.record "a" "Asha"] 2 10 = [].
Proof.
  destruct (paginatedData [Samples.record "a" "Asha"] 2 10) as [|x l] eqn:E;
    [reflexivity|].
  assert (H : paginatedData [Samples.record "a" "Asha"] 2 10 <> [])
    by (rewrite E; discriminate).
  apply (page_nonempty_iff_in_range [Samples.record "a" "Asha"] 2 10) in H;
    [|lia|lia].
  unfold totalPages in H. vm_compute in H. now elim H.
Defined.

(** X16.  From a page number between 1 and [totalPages] both paging
    buttons stay in that range.  On an empty table, though, [totalPages] is
    0, so on page 1 the next button is not disabled and leads to page 0;
    and page 0 shows no rows for any list, also one that has records. *)
Theorem paging_buttons_range_and_page_zero (sorted : list PolicyData) (p n : Z) :
  0 < n ->
  (1 <= p <= totalPages sorted n ->
   1 <= previous_page p <= totalPages sorted n /\
   1 <= next_page (totalPages sorted n) p <= totalPages sorted n) /\
  (sorted = [] ->
   next_disabled 1 (totalPages sorted n) = false /\
   next_page (totalPages sorted n) 1 = 0) /\
  paginatedData sorted 0 n = [].
Proof.
  intros Hn. unfold previous_page, next_page, next_disabled.
  split; [lia|]. split.
  - intros ->. unfold totalPages.
    pose proof (Math_ceil_div_bounds 0 n Hn) as [Hlo Hhi].
    change (Z.of_nat (length (@nil PolicyData))) with 0.
    assert (0 <= Math_ceil_div 0 n) by nia.
    assert (Math_ceil_div 0 n < 1) by nia.
    replace (Math_ceil_div 0 n) with 0 by lia.
    split; reflexivity.
  - unfold paginatedData, slice.
    destruct (Z.ltb_spec ((0 - 1) * n) 0) as [_|?]; [|nia].
    replace ((0 - 1) * n + n) with 0 by lia. change (0 <? 0) with false.
    cbv iota.
    match goal with
    | |- take ?k _ = _ => replace k with 0%nat by lia
    end.
    reflexivity.
Qed.

Lemma paging_buttons_range_and_page_zero_witness :
  next_page (totalPages [] 10) 1 = 0 /\
  1 <= next_page (totalPages [Samples.record "a" "Asha"] 10) 1 <= 1.
Proof.
  split.
  - destruct (paging_buttons_range_and_page_zero [] 1 10 ltac:(lia))
      as (_ & Hempty & _).
    exact (proj2 (Hempty eq_refl)).
  - destruct (paging_buttons_range_and_page_zero [Samples.record "a" "Asha"]
                1 10 ltac:(lia)) as (Hrange & _).
    assert (Ht : totalPages [Samples.record "a" "Asha"] 10 = 1) by reflexivity.
    rewrite Ht in *. apply Hrange. lia.
Defined.

End PagingFacts.

(** ** The table: search terms, repeated sorts and the two exports *)

Module ViewFacts.
Import JS Types DataEntryForm DataTable ObjFacts TableFacts.

Lemma append_assoc' (a b c : string) : (a +:+ b) +:+ c = a +:+ (b +:+ c).
Proof.
  induction a as [|x a IH]; [reflexivity|].
  rewrite !append_String. now rewrite IH.
Qed.

Lemma includes_empty (s : string) : includes s "" = true.
Proof. apply includes_substring. now exists "", s. Qed.

Section SearchTerms.
Variable toLowerCase : string -> string.

(** X17.  With a host lowering that maps the empty text to itself, the
    empty search term shows every record that has at least one property,
    so the whole list when no record is the empty object; and for no term
    at all is a record without properties ever shown. *)
Theorem empty_search_shows_everything (data : list PolicyData) :
  toLowerCase "" = "" ->
  (Forall (fun item => item <> []) data ->
   filteredData toLowerCase data "" = data) /\
  (forall searchTerm : string,
     ~ In [] (filteredData toLowerCase data searchTerm)).
Proof.
  intros Hlow. split.
  - intros Hne. unfold filteredData.
    induction data as [|item data IH]; [reflexivity|].
    apply Forall_cons_1 in Hne as [Hitem Hdata]. simpl.
    replace (matches_search toLowerCase "" item) with true.
    + f_equal. now apply IH.
    + destruct item as [|[k v] item]; [congruence|].
      unfold matches_search. simpl. now rewrite Hlow, includes_empty.
  - intros searchTerm Hin. unfold filteredData in Hin.
    apply filter_In in Hin as [_ Hm]. discriminate Hm.
Qed.

(** X18.  Narrowing the term narrows the result: when the lowercased new
    term contains the lowercased old term, every record shown for the new
    term was shown for the old one, in the same order. *)
Theorem longer_term_narrows (data : list PolicyData) (old new : string) :
  (exists pre post : string,
     toLowerCase new = pre +:+ toLowerCase old +:+ post) ->
  sublist (filteredData toLowerCase data new)
          (filteredData toLowerCase data old).
Proof.
  intros (pre & post & Hterm). unfold filteredData.
  apply filter_greatest; [apply filter_sublist|].
  apply List.Forall_forall. intros item Hin.
  apply filter_In in Hin as [_ Hm].
  apply matches_search_has_match in Hm as (val & a & b & Hval & Hlow).
  apply matches_search_has_match. exists val, (a +:+ pre), (post +:+ b).
  split; [assumption|]. rewrite Hlow, Hterm.
  now rewrite !append_assoc'.
Qed.

End SearchTerms.

Lemma empty_search_shows_everything_witness :
  filteredData Samples.ascii_toLowerCase
    [Samples.record "a" "Asha"; Samples.record "b" "Bala"] ""
  = [Samples.record "a" "Asha"; Samples.record "b" "Bala"].
Proof.
  apply (empty_search_shows_everything Samples.ascii_toLowerCase); [reflexivity|].
  repeat (apply Forall_cons_2; [discriminate|]). apply Forall_nil_2.
Defined.

Lemma longer_term_narrows_witness :
  sublist
    (filteredData Samples.ascii_toLowerCase
       [Samples.record "a" "Asha"; Samples.record "b" "Natasha"] "Tash")
    (filteredData Samples.ascii_toLowerCase
       [Samples.record "a" "Asha"; Samples.record "b" "Natasha"] "ASH").
Proof.
  apply longer_term_narrows. now exists "t", "".
Defined.

Lemma in_order_not_after (cfg : SortConfig) (a b : PolicyData) :
  in_order cfg a b -> (0 <? compare_by cfg a b) = false.
Proof.
  intros (x & y & Hx & Hy & Hxy). unfold compare_by. rewrite Hx, Hy. simpl.
  destruct (direction cfg); simpl.
  - rewrite Hxy. now destruct (str_lt x y).
  - rewrite Hxy. now destruct (str_lt y x).
Qed.

Lemma sort_of_sorted (cfg : SortConfig) (l : list PolicyData) :
  StronglySorted (in_order cfg) l -> sort (compare_by cfg) l = l.
Proof.
  induction 1 as [|x l Hs IH Hx]; [reflexivity|].
  simpl. rewrite IH. destruct l as [|y l]; [reflexivity|]. simpl.
  apply Forall_cons_1 in Hx as [Hxy _].
  now rewrite (in_order_not_after cfg x y Hxy).
Qed.

(** X19.  Sorting a list that is already sorted under the same
    configuration changes nothing: for records that carry the key, sorting
    the sorted list again gives the same list, record for record. *)
Theorem sorting_twice_is_sorting_once (filtered : list PolicyData)
    (cfg : SortConfig) :
  Forall (fun item => is_Some (get (key cfg) item)) filtered ->
  sortedData (sortedData filtered (Some cfg)) (Some cfg)
  = sortedData filtered (Some cfg).
Proof.
  intros Hkeys. destruct (sortedData_sorted filtered cfg Hkeys) as [_ Hs].
  exact (sort_of_sorted cfg _ Hs).
Qed.

Lemma sorting_twice_is_sorting_once_witness :
  let l := [Samples.record "1" "Bala"; Samples.record "2" "Asha"] in
  let cfg := mkSortConfig "customerName" ascending in
  sortedData (sortedData l (Some cfg)) (Some cfg) = sortedData l (Some cfg).
Proof.
  intros l cfg. apply sorting_twice_is_sorting_once.
  repeat (apply Forall_cons_2; [eexists; reflexivity|]). apply Forall_nil_2.
Defined.

(** X20.  A click on a column header always leaves the table sorted on
    that column; it never returns to the unsorted state.  Repeated clicks
    on the same header alternate the direction, and the first click on
    another header starts ascending. *)
Theorem header_clicks_alternate (k : string) (sortConfig : option SortConfig) :
  exists d : Direction,
    requestSort k sortConfig = Some (mkSortConfig k d) /\
    requestSort k (requestSort k sortConfig)
    = Some (mkSortConfig k (flip_direction d)) /\
    requestSort k (requestSort k (requestSort k sortConfig))
    = Some (mkSortConfig k d) /\
    (forall k' : string,
       k' <> k ->
       requestSort k' (requestSort k sortConfig)
       = Some (mkSortConfig k' ascending)).
Proof.
  unfold requestSort. destruct sortConfig as [[k0 d0]|]; simpl.
  - destruct (String.eqb_spec k0 k) as [->|Hne]; simpl.
    + destruct d0; simpl; eexists; (split; [reflexivity|]);
        rewrite ?String.eqb_refl; simpl; rewrite ?String.eqb_refl; simpl;
        (split; [reflexivity|]); (split; [reflexivity|]);
        intros k' Hk'; destruct (String.eqb_spec k k'); simpl; congruence.
    + eexists; (split; [reflexivity|]);
        rewrite ?String.eqb_refl; simpl; rewrite ?String.eqb_refl; simpl;
        (split; [reflexivity|]); (split; [reflexivity|]);
        intros k' Hk'; destruct (String.eqb_spec k k'); simpl; congruence.
  - eexists; (split; [reflexivity|]);
      rewrite ?String.eqb_refl; simpl; rewrite ?String.eqb_refl; simpl;
      (split; [reflexivity|]); (split; [reflexivity|]);
      intros k' Hk'; destruct (String.eqb_spec k k'); simpl; congruence.
Qed.

Lemma header_clicks_alternate_witness :
  requestSort "premium" (requestSort "customerName" None)
  = Some (mkSortConfig "premium" ascending).
Proof.
  destruct (header_clicks_alternate "customerName" None) as (d & _ & _ & _ & H).
  apply H. discriminate.
Defined.

Lemma get_own_keys (o : Obj string) :
  List.NoDup (Object_keys o) ->
  map (fun h => get h o) (Object_keys o) = map Some (Object_values o).
Proof.
  induction o as [|[k v] o IH]; intros Hnd; [reflexivity|].
  simpl in Hnd. apply List.NoDup_cons_iff in Hnd as [Hk Hnd].
  simpl. rewrite String.eqb_refl. f_equal.
  rewrite <- (IH Hnd). apply map_ext_in. intros h Hh.
  destruct (String.eqb_spec k h) as [->|_]; [contradiction|reflexivity].
Qed.

Lemma lookup_map_Some {A B} (f : A -> B) (l : list A) (i : nat) (x : A) :
  l !! i = Some x -> map f l !! i = Some (f x).
Proof.
  revert i. induction l as [|y l IH]; intros [|i] H; try discriminate H.
  - now injection H as ->.
  - now apply IH.
Qed.

(** X21.  The two exports agree on records shaped like the first one.  For
    a record whose property names are distinct and are, in order, those of
    the first record, the PDF row holds the record's values in column
    order, and the CSV line is made of exactly these values, each quoted,
    in the same order. *)
Theorem exports_agree_on_uniform_records (first : PolicyData)
    (rest : list PolicyData) (i : nat) (row : PolicyData) :
  (first :: rest) !! i = Some row ->
  Object_keys row = Object_keys first ->
  List.NoDup (Object_keys row) ->
  exists (head : list string) (body : list (list string)) (cells : list string),
    exportToPDF (first :: rest) = inr (head, body) /\
    head = Object_keys first /\
    body !! i = Some cells /\
    zip head cells = row /\
    csv_row head row
    = join "," (map (fun v => JSON_stringify (Some v)) cells).
Proof.
  intros Hi Hkeys Hnd.
  exists (Object_keys first), (map Object_values (first :: rest)),
    (Object_values row).
  split; [reflexivity|]. split; [reflexivity|]. split; [|split].
  - exact (lookup_map_Some _ _ _ _ Hi).
  - rewrite <- Hkeys. unfold Object_keys, Object_values.
    clear. induction row as [|[k v] row IH]; [reflexivity|].
    simpl. now rewrite IH.
  - unfold csv_row. rewrite <- Hkeys. f_equal.
    rewrite <- (map_map (fun h => get h row) JSON_stringify).
    rewrite (get_own_keys row Hnd). now rewrite map_map.
Qed.

Lemma exports_agree_on_uniform_records_witness :
  exists cells : list string,
    csv_row (Object_keys (Samples.record "a" "Asha")) (Samples.record "b" "Bala")
    = join "," (map (fun v => JSON_stringify (Some v)) cells) /\
    zip (Object_keys (Samples.record "a" "Asha")) cells
    = Samples.record "b" "Bala".
Proof.
  assert (Hkeys : Object_keys (Samples.record "b" "Bala")
                  = Object_keys (Samples.record "a" "Asha"))
    by (vm_compute; reflexivity).
  assert (Hnd : List.NoDup (Object_keys (Samples.record "b" "Bala"))).
  { rewrite Hkeys. vm_compute. repeat constructor; simpl; intuition discriminate. }
  destruct (exports_agree_on_uniform_records (Samples.record "a" "Asha")
              [Samples.record "b" "Bala"] 1 (Samples.record "b" "Bala")
              eq_refl Hkeys Hnd)
    as (head & body & cells & _ & -> & _ & Hzip & Hcsv).
  exists cells. split; assumption.
Defined.

(** X22.  The CSV export produces text exactly for the non-empty lists;
    and when the first record's property names contain no line break, the
    text has one line break per record, that is a header line followed by
    one line for each record, whatever characters the values contain. *)
Theorem csv_text_has_a_line_per_record (data : list PolicyData) :
  (data = [] <-> exists e, exportToCSV data = inl e) /\
  (forall first : PolicyData,
     head data = Some first ->
     Forall (fun h => count_LF h = 0%nat) (Object_keys first) ->
     exists csvContent : string,
       exportToCSV data = inr csvContent /\
       count_LF csvContent = length data).
Proof.
  split.
  - destruct data as [|first rest]; simpl; split; try congruence.
    + intros _. eexists. reflexivity.
    + intros [e He]. discriminate He.
  - intros first Hfirst Hkeys. destruct data as [|x rest]; [discriminate|].
    injection Hfirst as ->. eexists. split; [reflexivity|].
    rewrite join_LF_lines.
    + simpl. now rewrite length_map.
    + apply Forall_cons_2; [now apply csv_header_no_LF|].
      apply Forall_fmap, List.Forall_forall. intros row _.
      apply csv_row_no_LF.
Qed.

(** The line count on two records, one with a line break in a value. *)
Lemma csv_text_has_a_line_per_record_witness :
  exists csvContent : string,
    exportToCSV [Samples.record "a" "Asha"; Samples.record "b" ("Ba" +:+ LF +:+ "la")]
    = inr csvContent /\
    count_LF csvContent = 2%nat.
Proof.
  apply (proj2 (csv_text_has_a_line_per_record
                  [Samples.record "a" "Asha";
                   Samples.record "b" ("Ba" +:+ LF +:+ "la")])
           (Samples.record "a" "Asha") eq_refl).
  vm_compute. repeat constructor.
Defined.

Lemma csv_row_agree (headers : list string) (row row' : PolicyData) :
  (forall h : string, In h headers -> get h row = get h row') ->
  csv_row headers row = csv_row headers row'.
Proof.
  intros Hsame. unfold csv_row. f_equal. apply map_ext_in. intros h Hh.
  now rewrite (Hsame h Hh).
Qed.

(** X23.  The CSV export takes its columns from the first record only.
    Two lists with the same first record whose later records agree, one by
    one, on the first record's properties export to the same text; so
    writing a property that the first record lacks into any later record
    leaves the exported text unchanged: that property is never exported. *)
Theorem csv_exports_only_first_records_properties (first : PolicyData)
    (rest rest' : list PolicyData) :
  Forall2 (fun r r' : PolicyData =>
             forall h : string,
               In h (Object_keys first) -> get h r = get h r')
          rest rest' ->
  exportToCSV (first :: rest) = exportToCSV (first :: rest') /\
  (forall (i : nat) (r : PolicyData) (k v : string),
     rest !! i = Some r -> ~ In k (Object_keys first) ->
     exportToCSV (first :: <[i := set k v r]> rest)
     = exportToCSV (first :: rest)).
Proof.
  intros Hagree.
  assert (Hrows : forall l l' : list PolicyData,
            Forall2 (fun r r' : PolicyData =>
                       forall h : string,
                         In h (Object_keys first) -> get h r = get h r') l l' ->
            map (csv_row (Object_keys first)) l
            = map (csv_row (Object_keys first)) l').
  { induction 1 as [|r r' l l' Hr _ IH]; [reflexivity|].
    simpl. rewrite IH. f_equal. now apply csv_row_agree. }
  split.
  - rewrite !exportToCSV_nonempty, !map_cons.
    now rewrite (Hrows rest rest' Hagree).
  - intros i r k v Hi Hk. rewrite !exportToCSV_nonempty, !map_cons.
    rewrite (Hrows (<[i := set k v r]> rest) rest); [reflexivity|].
    clear Hagree Hrows. revert i Hi.
    induction rest as [|q rest IH]; intros [|i] Hi; try discriminate Hi.
    + injection Hi as ->. simpl. apply Forall2_cons_2.
      * intros h Hh. apply get_set_ne. congruence.
      * apply Forall2_same_length_lookup_2; [reflexivity|]. congruence.
    + simpl. apply Forall2_cons_2; [reflexivity|]. now apply IH.
Qed.

(** A remark added to the second record only is not in the export. *)
Lemma csv_exports_only_first_records_properties_witness :
  exportToCSV [[("id", "a"); ("customerName", "Asha")];
               [("id", "b"); ("customerName", "Bala"); ("remarks", "urgent")]]
  = exportToCSV [[("id", "a"); ("customerName", "Asha")];
                 [("id", "b"); ("customerName", "Bala")]].
Proof.
  refine (proj2 (csv_exports_only_first_records_properties
                   [("id", "a"); ("customerName", "Asha")]
                   [[("id", "b"); ("customerName", "Bala")]]
                   [[("id", "b"); ("customerName", "Bala")]] _)
            0%nat [("id", "b"); ("customerName", "Bala")] "remarks" "urgent"
            eq_refl _).
  - apply Forall2_cons_2; [reflexivity|apply Forall2_nil_2].
  - simpl. intuition discriminate.
Defined.

End ViewFacts.
